(** * SMOTE oversampling over a dataframe engine: a shallow embedding of
      [smote.py] and the properties of its result.

    A data frame is its list of column names and the list of its rows, in
    the order the engine holds them; a row is the list of its named values.
    Floating-point numbers are idealised as exact rationals in canonical
    form ([Qc]), so that two rows are equal when their values are: the
    engine groups ([Window.partitionBy]) and de-duplicates (the similarity
    join) rows by value.

    What [smote] takes from the engine is a field of [Engine]: the bucket of
    a key under the fitted locality-sensitive hash, the distance of two
    keys, the seeded random column of the final shuffle, the vectorization
    pipeline.  The unseeded random draws of one run ([F.rand()],
    [random.uniform], [random.choice]) are the fields of a [Randomness]
    value: any sequence of draws is a value of that type.  Where the engine
    leaves an order open (the rows of a join, rows of equal sort key), the
    order of the list and a stable sort stand for it. *)

From Stdlib Require Import List ZArith QArith Qcanon Qround String Bool Lia Arith.
From Stdlib Require Import Permutation Sorted.
Import ListNotations.

Set Implicit Arguments.

Local Open Scope string_scope.
Local Open Scope Z_scope.
Local Open Scope list_scope.

(** ** Values, vectors, rows and data frames *)

(** [pyspark.ml.linalg]: a vector is dense or sparse. *)
Inductive Vector : Type :=
| DenseVector (values : list Qc)
| SparseVector (size : nat) (entries : list (nat * Qc)).

Inductive Value : Type :=
| VNum (n : Z)
| VVec (v : Vector).

Definition Row : Type := list (string * Value).

Record DataFrame : Type := mkDataFrame {
  columns : list string;
  rows : list Row
}.

(** The exceptions of the program: the two of Python, and those the engine
    raises for a column it cannot resolve ([AnalysisException]), for a stage
    whose input or output column is wrong ([IllegalArgumentException]), and
    while it runs a job ([EngineError]). *)
Inductive Error : Type :=
| ValueError (msg : string)
| TypeError (msg : string)
| AnalysisException (msg : string)
| IllegalArgumentException (msg : string)
| EngineError (msg : string).

Inductive Result (A : Type) : Type :=
| Ok (a : A)
| Err (e : Error).

Arguments Ok {A} a.
Arguments Err {A} e.

(** [class SmoteConfig]. *)
Record SmoteConfig : Type := mkSmoteConfig {
  seed : Z;
  bucketLength : Qc;
  k : Z;
  multiplier : Z;
  positive_label : Z;
  negative_label : Z
}.

(** ** Decidable equality *)

Definition Vector_eq_dec (v w : Vector) : {v = w} + {v <> w}.
Proof.
  decide equality.
  - apply (list_eq_dec Qc_eq_dec).
  - apply (list_eq_dec (fun p q : nat * Qc =>
      match Nat.eq_dec (fst p) (fst q), Qc_eq_dec (snd p) (snd q) with
      | left e1, left e2 => left (eq_trans (surjective_pairing p)
          (eq_trans (f_equal2 pair e1 e2) (eq_sym (surjective_pairing q))))
      | right n, _ => right (fun e => n (f_equal fst e))
      | _, right n => right (fun e => n (f_equal snd e))
      end)).
  - apply Nat.eq_dec.
Defined.

Definition Value_eq_dec (v w : Value) : {v = w} + {v <> w}.
Proof.
  decide equality.
  - apply Z.eq_dec.
  - apply Vector_eq_dec.
Defined.

Definition Row_eq_dec (r s : Row) : {r = s} + {r <> s}.
Proof.
  apply list_eq_dec. intros [c v] [d w].
  destruct (string_dec c d) as [e1 | n1].
  - destruct (Value_eq_dec v w) as [e2 | n2].
    + left. congruence.
    + right. congruence.
  - right. congruence.
Defined.

Definition Row_eqb (r s : Row) : bool :=
  if Row_eq_dec r s then true else false.

Definition Qc_leb (x y : Qc) : bool := Qle_bool x y.
Definition Qc_ltb (x y : Qc) : bool := negb (Qle_bool y x).
Definition Qc_eqb (x y : Qc) : bool := Qeq_bool x y.

(** ** Row and frame operations of the engine *)

Definition mem (c : string) (cs : list string) : bool :=
  existsb (String.eqb c) cs.

Fixpoint get (c : string) (r : Row) : option Value :=
  match r with
  | [] => None
  | (d, v) :: t => if String.eqb c d then Some v else get c t
  end.

(** [withColumn]: replaces the column of that name in place, or appends. *)
Definition withColumn (c : string) (v : Value) (r : Row) : Row :=
  if mem c (map fst r)
  then map (fun cv => if String.eqb (fst cv) c then (c, v) else cv) r
  else r ++ [(c, v)].

Definition withColumn_name (c : string) (cs : list string) : list string :=
  if mem c cs then cs else cs ++ [c].

Definition drop (cs : list string) (r : Row) : Row :=
  filter (fun cv => negb (mem (fst cv) cs)) r.

Definition drop_names (cs : list string) (names : list string) : list string :=
  filter (fun c => negb (mem c cs)) names.

Definition select (cs : list string) (r : Row) : Row :=
  flat_map (fun c => match get c r with
                     | Some v => [(c, v)]
                     | None => []
                     end) cs.

(** [df[df['label'] == x]]. *)
Definition has_label (x : Z) (r : Row) : bool :=
  match get "label" r with
  | Some (VNum n) => n =? x
  | _ => false
  end.

(** The types of the two columns [smote] reads by name, as far as the rows
    show them: the label column holds a vector, the feature column holds a
    number. *)
Definition label_is_vector (r : Row) : bool :=
  match get "label" r with
  | Some (VVec _) => true
  | _ => false
  end.

Definition features_is_number (r : Row) : bool :=
  match get "features_for_model" r with
  | Some (VNum _) => true
  | _ => false
  end.

Definition df_filter (f : Row -> bool) (d : DataFrame) : DataFrame :=
  mkDataFrame (columns d) (filter f (rows d)).

Definition df_select (cs : list string) (d : DataFrame) : DataFrame :=
  mkDataFrame cs (map (select cs) (rows d)).

Definition df_drop (cs : list string) (d : DataFrame) : DataFrame :=
  mkDataFrame (drop_names cs (columns d)) (map (drop cs) (rows d)).

(** [DataFrame.union]: the rows of the second frame after those of the
    first, under the first frame's columns (every use in [smote] follows a
    [select] of those columns). *)
Definition df_union (d1 d2 : DataFrame) : DataFrame :=
  mkDataFrame (columns d1) (rows d1 ++ rows d2).

(** [functools.reduce] without an initial value raises [TypeError] on an
    empty sequence. *)
Definition reduce {A : Type} (f : A -> A -> A) (l : list A) : Result A :=
  match l with
  | [] => Err (TypeError "reduce() of empty iterable with no initial value")
  | x :: t => Ok (fold_left f t x)
  end.

(** Stable sort by insertion, ascending for [leb]. *)
Fixpoint insert_by {A : Type} (leb : A -> A -> bool) (x : A) (l : list A)
  : list A :=
  match l with
  | [] => [x]
  | y :: t => if leb x y then x :: l else y :: insert_by leb x t
  end.

Fixpoint sort_by {A : Type} (leb : A -> A -> bool) (l : list A) : list A :=
  match l with
  | [] => []
  | x :: t => insert_by leb x (sort_by leb t)
  end.

(** [Window.partitionBy(key)]: the groups of equal key, in the order of the
    first row of each. *)
Definition partitionBy {A : Type} (key : A -> Row) (l : list A)
  : list (list A) :=
  map (fun a => filter (fun x => Row_eqb (key x) a) l)
      (nodup Row_eq_dec (map key l)).

Definition row_number_of (r : Row) : Z :=
  match get "row_number" r with
  | Some (VNum n) => n
  | _ => 0
  end.

(** [withColumn('row_number', row_number().over(Window.orderBy(lit('A'))))]:
    the ordering key is constant, so the rows are numbered 1, 2, ... in the
    order they have. *)
Definition with_row_number (d : DataFrame) : DataFrame :=
  mkDataFrame
    (withColumn_name "row_number" (columns d))
    (map (fun nr => withColumn "row_number" (VNum (Z.of_nat (fst nr))) (snd nr))
         (combine (seq 1 (List.length (rows d))) (rows d))).

(** [sort('row_number')]. *)
Definition sort_row_number (d : DataFrame) : DataFrame :=
  mkDataFrame (columns d)
    (sort_by (fun r s => row_number_of r <=? row_number_of s) (rows d)).

(** ** The two vector functions *)

Fixpoint entry (i : nat) (es : list (nat * Qc)) : Qc :=
  match es with
  | [] => Q2Qc 0
  | (j, x) :: t => if Nat.eqb i j then x else entry i t
  end.

(** [SparseVector.toArray]; a dense vector is used through its array. *)
Definition toArray (v : Vector) : list Qc :=
  match v with
  | DenseVector a => a
  | SparseVector n es => map (fun i => entry i es) (seq 0 n)
  end.

(** Element-wise arithmetic of two arrays (of one length, as the feature
    vectors of one frame are). *)
Fixpoint zipWith (f : Qc -> Qc -> Qc) (a b : list Qc) : list Qc :=
  match a, b with
  | x :: a', y :: b' => f x y :: zipWith f a' b'
  | _, _ => []
  end.

(** [subtract_vector_fn]: [u] is the value [random.uniform(0, 1)] returns in
    this call. *)
Definition subtract_vector_fn (u : Qc) (arr : Vector * Vector) : Vector :=
  let a := toArray (fst arr) in
  let b := toArray (snd arr) in
  DenseVector (map (Qcmult u) (zipWith Qcminus a b)).

Definition add_vector_fn (arr : Vector * Vector) : Vector :=
  let a := toArray (fst arr) in
  let b := toArray (snd arr) in
  DenseVector (zipWith Qcplus a b).

(** ** The engine and the random draws of one run *)

(** What [smote] takes from the dataframe engine:
    - [hashFunction s b v]: the bucket of key [v] under the model fitted by
      [BucketedRandomProjectionLSH(seed=s, bucketLength=b)];
    - [keyDistance v w]: the distance the similarity join reports;
    - [rand_seeded s j]: the value of the column [F.rand(seed=s)] at row [j];
    - [pipeline_transform stages df]: [Pipeline(stages).fit(df).transform(df)]
      of the vectorization, the stages given by their input columns; the
      engine raises when a stage does not accept the frame. *)
Record Engine : Type := mkEngine {
  hashFunction : Z -> Qc -> Vector -> Z;
  keyDistance : Vector -> Vector -> Qc;
  rand_seeded : Z -> nat -> Qc;
  pipeline_transform :
    list string * string * list string -> DataFrame -> Result DataFrame
}.

(** [random.choice(['datasetA','datasetB'])]. *)
Inductive Side : Type :=
| PickA
| PickB.

(** The unseeded draws of one run:
    - [rand i j]: [F.rand()] of batch [i] at row [j] of the candidate frame;
    - [uniform i j]: [random.uniform(0, 1)] of batch [i] at row [j] of the
      selected pairs;
    - [choice i j]: [random.choice] of batch [i] at the [j]-th column of
      [original_cols]. *)
Record Randomness : Type := mkRandomness {
  rand : nat -> nat -> Qc;
  uniform : nat -> nat -> Qc;
  choice : nat -> nat -> Side
}.

(** A row of the similarity join: the two rows as structs, and their
    distance. *)
Record Pair : Type := mkPair {
  datasetA : Row;
  datasetB : Row;
  EuclideanDistance : Qc
}.

Definition features_of (r : Row) : Vector :=
  match get "features_for_model" r with
  | Some (VVec v) => v
  | _ => DenseVector []
  end.

Definition RowPair_eq_dec (x y : Row * Row) : {x = y} + {x <> y}.
Proof.
  destruct x as [a b], y as [c d].
  destruct (Row_eq_dec a c) as [e1 | n1].
  - destruct (Row_eq_dec b d) as [e2 | n2].
    + left. congruence.
    + right. congruence.
  - right. congruence.
Defined.

Definition Qc_max (x y : Qc) : Qc := if Qc_leb x y then y else x.

(** [F.max] over a group. *)
Definition max_of (l : list Qc) : Qc :=
  match l with
  | [] => Q2Qc 0
  | x :: t => fold_left Qc_max t x
  end.

Definition side_row (s : Side) (p : Pair) : Row :=
  match s with
  | PickA => datasetA p
  | PickB => datasetB p
  end.

(** [F.col("datasetA.c")], [F.col("datasetB.c")]. *)
Definition F_col (col_sub : Side) (c : string) (p : Pair) : option Value :=
  get c (side_row col_sub p).

Definition join_columns : list string :=
  ["datasetA"; "datasetB"; "vec_diff"; "EuclideanDistance"].

(** ** [smote] *)

Section Smote.

Variable E : Engine.
Variable rnd : Randomness.
Variable vectorized_sdf : DataFrame.
Variable smote_config : SmoteConfig.

Definition dataInput_min : DataFrame :=
  df_filter (has_label (positive_label smote_config)) vectorized_sdf.

Definition dataInput_maj : DataFrame :=
  df_filter (has_label (negative_label smote_config)) vectorized_sdf.

(** [brp.fit(dataInput_min)]. *)
Definition model (v : Vector) : Z :=
  hashFunction E (seed smote_config) (bucketLength smote_config) v.

(** [model.approxSimilarityJoin(a, b, float('inf'), distCol)]: the pairs
    of rows in one bucket, each pair of values once, with their distance;
    no finite distance is above the threshold. *)
Definition approxSimilarityJoin (a b : list Row) : list Pair :=
  map (fun ab => mkPair (fst ab) (snd ab)
                   (keyDistance E (features_of (fst ab))
                                  (features_of (snd ab))))
      (nodup RowPair_eq_dec
         (filter (fun ab => model (features_of (fst ab))
                            =? model (features_of (snd ab)))
                 (list_prod a b))).

(** The join, with the self-comparisons (distance 0) removed. *)
Definition self_join_w_distance : list Pair :=
  filter (fun p => Qc_ltb (Q2Qc 0) (EuclideanDistance p))
         (approxSimilarityJoin (rows dataInput_min) (rows dataInput_min)).

(** [withColumn("r_num", F.row_number().over(over_original_rows))]: each
    group of one [datasetA], ordered by distance and numbered from 1. *)
Definition self_similarity_df : list (Pair * Z) :=
  flat_map
    (fun g =>
       combine (sort_by (fun p q => Qc_leb (EuclideanDistance p)
                                           (EuclideanDistance q)) g)
               (map Z.of_nat (seq 1 (List.length g))))
    (partitionBy datasetA self_join_w_distance).

Definition self_similarity_df_selected : list (Pair * Z) :=
  filter (fun pr => snd pr <=? k smote_config) self_similarity_df.

Definition original_cols : list string := columns dataInput_min.

(** Batch [i]: the rows whose draw is the largest of their group. *)
Definition df_random_sel (i : nat) : list Pair :=
  let with_rand :=
    combine self_similarity_df_selected
            (map (rand rnd i)
                 (seq 0 (List.length self_similarity_df_selected))) in
  let with_max_rand :=
    flat_map (fun g => map (fun x => (x, max_of (map snd g))) g)
             (partitionBy (fun x => datasetA (fst (fst x))) with_rand) in
  map (fun x => fst (fst (fst x)))
      (filter (fun x => Qc_eqb (snd (fst x)) (snd x)) with_max_rand).

(** The new feature vector of a pair, [u] drawn for its row. *)
Definition vec_diff (u : Qc) (p : Pair) : Vector :=
  subtract_vector_fn u (features_of (datasetA p), features_of (datasetB p)).

Definition new_features (u : Qc) (p : Pair) : Vector :=
  add_vector_fn (features_of (datasetB p), vec_diff u p).

(** One turn of the loop [for c in original_cols], on the row of pair [p];
    the turns are counted, and [choice rnd i j] is the side drawn at turn
    [j].  Every column of [original_cols] is a column of both structs, so
    that [F_col] finds it. *)
Definition inherit_column (i : nat) (p : Pair) (acc : Row)
           (jc : nat * string) : Row :=
  let col_sub := choice rnd i (fst jc) in
  let c := snd jc in
  if negb (String.eqb c "features_for_model")
  then match F_col col_sub c p with
       | Some v => withColumn c v acc
       | None => acc
       end
  else acc.

Definition enumerate (cs : list string) : list (nat * string) :=
  combine (seq 0 (List.length cs)) cs.

(** The synthetic row of pair [p] in batch [i]. *)
Definition synthetic_row (i : nat) (u : Qc) (p : Pair) : Row :=
  drop join_columns
       (fold_left (inherit_column i p) (enumerate original_cols)
                  [("features_for_model", VVec (new_features u p))]).

Definition synthetic_columns : list string :=
  drop_names join_columns
    (fold_left (fun cs c => if negb (String.eqb c "features_for_model")
                            then withColumn_name c cs else cs)
               original_cols
               ["datasetA"; "datasetB"; "EuclideanDistance"; "vec_diff";
                "features_for_model"]).

Definition df_vec_modified (i : nat) : DataFrame :=
  let sel := df_random_sel i in
  mkDataFrame synthetic_columns
    (map (fun jp => synthetic_row i (uniform rnd i (fst jp)) (snd jp))
         (combine (seq 0 (List.length sel)) sel)).

(** [for i in range(int(smote_config.multiplier))]. *)
Definition res : list DataFrame :=
  map df_vec_modified (seq 0 (Z.to_nat (multiplier smote_config))).

(** [.sort(F.rand(seed=smote_config.seed))]. *)
Definition sort_rand (d : DataFrame) : DataFrame :=
  mkDataFrame (columns d)
    (map fst
       (sort_by (fun x y => Qc_leb (snd x) (snd y))
          (combine (rows d)
             (map (rand_seeded E (seed smote_config))
                  (seq 0 (List.length (rows d))))))).

(** The minority rows and the synthetic ones, shuffled and numbered. *)
Definition dfunion (batches : DataFrame) : DataFrame :=
  with_row_number
    (sort_rand
       (df_union batches (df_select (columns batches) dataInput_min))).

Definition oversampled_df (batches : DataFrame) : DataFrame :=
  df_union (dfunion batches)
           (df_select (columns (dfunion batches))
                      (with_row_number dataInput_maj)).

(** The number of synthetic rows of each batch. *)
Definition batch_sizes : list nat :=
  map (fun i => List.length (df_random_sel i))
      (seq 0 (Z.to_nat (multiplier smote_config))).

(** [brp.fit(dataInput_min)]: the engine raises when the frame has no input
    column or the column is not one of vectors (the filter by label keeps
    the types of the frame), when the frame has the output column [hashes]
    already, and when the frame has no row or its first row no vector, the
    dimension of the keys being read off the first row. *)
Definition brp_fit : Result unit :=
  if negb (mem "features_for_model" (columns dataInput_min))
  then Err (IllegalArgumentException "features_for_model does not exist")
  else if existsb features_is_number (rows vectorized_sdf)
  then Err (IllegalArgumentException "features_for_model is not a vector")
  else if mem "hashes" (columns dataInput_min)
  then Err (IllegalArgumentException "hashes already exists")
  else match rows dataInput_min with
       | [] => Err (EngineError "fit on an empty frame")
       | r :: _ =>
           match get "features_for_model" r with
           | Some (VVec _) => Ok tt
           | _ => Err (EngineError "fit on a row without a vector")
           end
       end.

(** The comparisons of the label with the two configured labels come
    first: the engine resolves the column and its type when the filter is
    built. *)
Definition smote : Result DataFrame :=
  if negb (mem "label" (columns vectorized_sdf))
  then Err (AnalysisException "cannot resolve label")
  else if existsb label_is_vector (rows vectorized_sdf)
  then Err (AnalysisException "cannot compare label with a number")
  else
    match brp_fit with
    | Err e => Err e
    | Ok _ =>
        match reduce df_union res with
        | Err e => Err e
        | Ok batches =>
            Ok (df_drop ["row_number"]
                        (sort_row_number (oversampled_df batches)))
        end
    end.

End Smote.

(** ** [pre_smote_df_process] *)

(** [list.remove]: the first occurrence. *)
Fixpoint remove_first (c : string) (cs : list string) : list string :=
  match cs with
  | [] => []
  | d :: t => if String.eqb c d then t else d :: remove_first c t
  end.

Definition OptValue_eq_dec (x y : option Value) : {x = y} + {x <> y}.
Proof.
  decide equality. apply Value_eq_dec.
Defined.

(** [df.select(target_col).distinct()]. *)
Definition distinct_values (c : string) (d : DataFrame) : list (option Value) :=
  nodup OptValue_eq_dec (map (get c) (rows d)).

Definition pre_smote_df_process (E : Engine) (df : DataFrame)
           (num_cols cat_cols : list string) (target_col : string)
           (index_suffix : string) : Result DataFrame :=
  if negb (mem target_col (columns df))
  then Err (AnalysisException "cannot resolve the target column")
  else if negb (Nat.eqb (List.length (distinct_values target_col df)) 2)
  then Err (ValueError "Target col must have exactly 2 classes")
  else
    let num_cols :=
      if mem target_col num_cols then remove_first target_col num_cols
      else num_cols in
    let indexed :=
      filter (fun c => negb (String.eqb c target_col))
             (nodup string_dec cat_cols) in
    match pipeline_transform E (indexed, index_suffix, num_cols) df with
    | Err e => Err e
    | Ok pos_vectorized =>
        let drop_cols := num_cols ++ cat_cols in
        let keep_cols :=
          filter (fun a => negb (mem a drop_cols))
                 (columns pos_vectorized) in
        (* pos_vectorized[target_col] is a column of the frame before the
           select: after it, the engine resolves it only when the column
           is kept. *)
        if negb (mem target_col keep_cols)
        then Err (AnalysisException "cannot resolve the target column")
        else
          Ok (df_drop [target_col]
                (mkDataFrame
                   (withColumn_name "label" keep_cols)
                   (map (fun r =>
                           match get target_col r with
                           | Some v =>
                               withColumn "label" v (select keep_cols r)
                           | None => select keep_cols r
                           end)
                        (rows pos_vectorized))))
    end.

(** ** A concrete engine, concrete draws and small frames *)

Definition q (n : Z) (d : positive) : Qc := Q2Qc (n # d).

(** The square of the Euclidean distance: it has the zeros and the order of
    the distance itself. *)
Definition squared_distance (v w : Vector) : Qc :=
  fold_right Qcplus (Q2Qc 0)
    (zipWith (fun x y => ((x - y) * (x - y))%Qc) (toArray v) (toArray w)).

(** The order of two numbers, for the ranks of [string_index]. *)
Definition value_ltb (v w : option Value) : bool :=
  match v, w with
  | Some (VNum a), Some (VNum b) => a <? b
  | _, _ => false
  end.

(** [StringIndexer]: the rank of the value by descending frequency, and
    among equal frequencies by ascending number. *)
Definition string_index (c : string) (d : DataFrame) (r : Row) : Z :=
  let frequency v := count_occ OptValue_eq_dec (map (get c) (rows d)) v in
  Z.of_nat
    (List.length
       (filter (fun w =>
                  Nat.ltb (frequency (get c r)) (frequency w)
                  || (Nat.eqb (frequency w) (frequency (get c r))
                      && value_ltb w (get c r)))
               (distinct_values c d))).

(** [VectorAssembler]: the values of the input columns, in one dense
    vector. *)
Definition assemble (num_cols : list string) (r : Row) : Vector :=
  DenseVector
    (flat_map (fun c => match get c r with
                        | Some (VNum n) => [q n 1]
                        | Some (VVec v) => toArray v
                        | None => []
                        end) num_cols).

(** A small vectorization: each indexed column gets an index column, and
    the numerical columns are assembled into [features_for_model].  It
    raises when an input column is absent or an output column exists. *)
Definition sample_pipeline (stages : list string * string * list string)
           (d : DataFrame) : Result DataFrame :=
  let indexed := fst (fst stages) in
  let suffix := snd (fst stages) in
  let num_cols := snd stages in
  let index_cols := map (fun c => (c ++ suffix)%string) indexed in
  if negb (forallb (fun c => mem c (columns d)) (indexed ++ num_cols))
  then Err (IllegalArgumentException "an input column does not exist")
  else if existsb (fun c => mem c (columns d))
                  ("features_for_model" :: index_cols)
  then Err (IllegalArgumentException "an output column already exists")
  else
    Ok (mkDataFrame
          (columns d ++ index_cols ++ ["features_for_model"])
          (map (fun r =>
                  r ++ map (fun c => ((c ++ suffix)%string,
                                      VNum (string_index c d r))) indexed
                    ++ [("features_for_model", VVec (assemble num_cols r))])
               (rows d))).

(** Buckets of width [bucketLength] along the first coordinate. *)
Definition first_coordinate_engine : Engine :=
  mkEngine
    (fun _ b v => Qfloor (hd (Q2Qc 0) (toArray v) / b)%Qc)
    squared_distance
    (fun _ j => q 1 (Pos.of_nat (S j)))
    sample_pipeline.

(** Draws that are pairwise different within a batch. *)
Definition distinct_draws : Randomness :=
  mkRandomness
    (fun _ j => q 1 (Pos.of_nat (j + 2)))
    (fun _ _ => q 1 2)
    (fun _ j => if Nat.even j then PickA else PickB).

(** Draws that coincide. *)
Definition tied_draws : Randomness :=
  mkRandomness
    (fun _ _ => q 1 2)
    (fun _ _ => q 1 2)
    (fun _ _ => PickA).

Definition sample_row (l : Z) (f : list Z) (a : Z) : Row :=
  [("cat_index", VNum a);
   ("features_for_model", VVec (DenseVector (map (fun z => q z 1) f)));
   ("label", VNum l)].

Definition sample_columns : list string :=
  ["cat_index"; "features_for_model"; "label"].

(** Minority A = (0,0) and B = (2,0), majority C = (10,10). *)
Definition frame_AB_C : DataFrame :=
  mkDataFrame sample_columns
    [sample_row 1 [0; 0] 7; sample_row 0 [10; 10] 8; sample_row 1 [2; 0] 9].

(** Two minority rows of one feature vector, one majority row. *)
Definition frame_equal_features : DataFrame :=
  mkDataFrame sample_columns
    [sample_row 1 [1; 1] 7; sample_row 1 [1; 1] 9; sample_row 0 [10; 10] 8].

(** One minority row, two majority rows. *)
Definition frame_one_minority : DataFrame :=
  mkDataFrame sample_columns
    [sample_row 1 [0; 0] 7; sample_row 0 [10; 10] 8; sample_row 0 [9; 9] 8].

(** Three minority rows, one majority row, one row of a third label. *)
Definition frame_three_labels : DataFrame :=
  mkDataFrame sample_columns
    [sample_row 1 [0; 0] 7; sample_row 1 [2; 0] 9; sample_row 1 [3; 1] 9;
     sample_row 0 [10; 10] 8; sample_row 2 [5; 5] 8].

Definition config (k_ multiplier_ : Z) : SmoteConfig :=
  mkSmoteConfig 42 (q 100 1) k_ multiplier_ 1 0.

(** The row count of the specification. *)
Definition expected_row_count (d : DataFrame) (c : SmoteConfig) : nat :=
  (List.length (rows (dataInput_min d c)) * (Z.to_nat (multiplier c) + 1)
   + List.length (rows (dataInput_maj d c)))%nat.

(** Every minority row has another minority row of its bucket at a
    positive distance. *)
Definition every_source_has_candidate (E : Engine) (d : DataFrame)
           (c : SmoteConfig) : Prop :=
  forall a, In a (rows (dataInput_min d c)) ->
    exists b, In b (rows (dataInput_min d c))
              /\ model E c (features_of a) = model E c (features_of b)
              /\ (Q2Qc 0 < keyDistance E (features_of a) (features_of b))%Qc.

(** No two rows of a batch receive the same draw of [F.rand()]. *)
Definition no_ties (rnd : Randomness) : Prop :=
  forall i j1 j2, rand rnd i j1 = rand rnd i j2 -> j1 = j2.

(** [random.uniform(0, 1)] returns a value of the interval [0, 1). *)
Definition uniform_in_range (rnd : Randomness) : Prop :=
  forall i j, (Q2Qc 0 <= uniform rnd i j)%Qc /\ (uniform rnd i j < Q2Qc 1)%Qc.

(** The point [b + u (a - b)] of the segment from [b] to [a]. *)
Definition segment_point (u : Qc) (a b : list Qc) : list Qc :=
  zipWith (fun x y => (y + u * (x - y))%Qc) a b.

(** The distance of a key to itself is 0. *)
Definition distance_zero_on_equal (E : Engine) : Prop :=
  forall v, keyDistance E v v = Q2Qc 0.

(** A pair of two different rows at a positive distance. *)
Definition proper_pair (p : Pair) : Prop :=
  datasetA p <> datasetB p /\ (Q2Qc 0 < EuclideanDistance p)%Qc.

(** The two groups of rows that [oversampled_df] unites, each with its
    [row_number] column. *)
Definition minority_part (E : Engine) (d : DataFrame) (c : SmoteConfig)
           (batches : DataFrame) : list Row :=
  rows (dfunion E d c batches).

Definition majority_part (E : Engine) (d : DataFrame) (c : SmoteConfig)
           (batches : DataFrame) : list Row :=
  rows (df_select (columns (dfunion E d c batches))
                  (with_row_number (dataInput_maj d c))).

Definition by_row_number (r s : Row) : Prop :=
  row_number_of r <= row_number_of s.

(** The rows of the two configured labels. *)
Definition of_two_labels (c : SmoteConfig) (r : Row) : bool :=
  has_label (positive_label c) r || has_label (negative_label c) r.

(** The candidate neighbours of a minority row in the index. *)
Definition candidates (E : Engine) (d : DataFrame) (c : SmoteConfig)
           (a : Row) : list Row :=
  map (fun x => datasetB (fst x))
      (filter (fun x => Row_eqb (datasetA (fst x)) a)
              (self_similarity_df_selected E d c)).

(** The pairs of source [a] that the join keeps, in ascending distance. *)
Definition neighbours_by_distance (E : Engine) (d : DataFrame)
           (c : SmoteConfig) (a : Row) : list Pair :=
  sort_by (fun p q => Qc_leb (EuclideanDistance p) (EuclideanDistance q))
          (filter (fun p => Row_eqb (datasetA p) a)
                  (self_join_w_distance E d c)).

(** Every row of the frame has exactly the columns of the frame, in their
    order. *)
Definition rows_have_columns (d : DataFrame) : Prop :=
  Forall (fun r => map fst r = columns d) (rows d).

(** [pos_vectorized = pipeline.fit(df).transform(df)], as
    [pre_smote_df_process] computes it. *)
Definition pos_vectorized (E : Engine) (df : DataFrame)
           (num_cols cat_cols : list string) (target_col : string)
           (index_suffix : string) : Result DataFrame :=
  pipeline_transform E
    (filter (fun c => negb (String.eqb c target_col))
            (nodup string_dec cat_cols),
     index_suffix,
     if mem target_col num_cols then remove_first target_col num_cols
     else num_cols)
    df.

(** A frame before the vectorization, the target in column [isFraud]. *)
Definition raw_frame : DataFrame :=
  mkDataFrame ["step"; "type"; "amount"; "isFraud"]
    [[("step", VNum 1); ("type", VNum 3); ("amount", VNum 250);
      ("isFraud", VNum 0)];
     [("step", VNum 1); ("type", VNum 4); ("amount", VNum 9000);
      ("isFraud", VNum 1)];
     [("step", VNum 2); ("type", VNum 3); ("amount", VNum 40);
      ("isFraud", VNum 0)]].

(** The same frame with the target in a column named [label]. *)
Definition raw_frame_label : DataFrame :=
  mkDataFrame ["step"; "type"; "amount"; "label"]
    [[("step", VNum 1); ("type", VNum 3); ("amount", VNum 250);
      ("label", VNum 0)];
     [("step", VNum 1); ("type", VNum 4); ("amount", VNum 9000);
      ("label", VNum 1)];
     [("step", VNum 2); ("type", VNum 3); ("amount", VNum 40);
      ("label", VNum 0)]].

(** The distance of two keys does not depend on their order. *)
Definition distance_symmetric (E : Engine) : Prop :=
  forall v w, keyDistance E v w = keyDistance E w v.

(** The sources of the index: the rows that have a candidate. *)
Definition sources (E : Engine) (d : DataFrame) (c : SmoteConfig)
  : list Row :=
  nodup Row_eq_dec
        (map (fun x => datasetA (fst x)) (self_similarity_df_selected E d c)).

(** No row has a vector for label, and every row has its feature vector,
    of the one dimension of the frame. *)
Definition column_types (d : DataFrame) : Prop :=
  exists n,
    forall r, In r (rows d) ->
      label_is_vector r = false
      /\ exists v, get "features_for_model" r = Some (VVec v)
                   /\ List.length (toArray v) = n.

(** The frame has the two columns [smote] reads by name; its column names
    are pairwise different, and none is a name [smote] gives to a column of
    its own: the output column of the hash, the columns of the join. *)
Definition named_columns (d : DataFrame) : Prop :=
  In "label" (columns d)
  /\ In "features_for_model" (columns d)
  /\ NoDup (columns d)
  /\ ~ In "hashes" (columns d)
  /\ (forall x, In x join_columns -> ~ In x (columns d)).

(** The frame has its columns, of their types, and a minority row: the
    selection by label and the fit of the hash go through. *)
Definition fit_succeeds (d : DataFrame) (c : SmoteConfig) : Prop :=
  named_columns d
  /\ column_types d
  /\ rows (dataInput_min d c) <> [].

(** ** Facts about the list operations *)

Section ListFacts.

Variable A : Type.
Variable leb : A -> A -> bool.

Lemma insert_by_perm (x : A) (l : list A) :
  Permutation (insert_by leb x l) (x :: l).
Proof.
  induction l as [| y t IH]; simpl.
  - apply Permutation_refl.
  - destruct (leb x y).
    + apply Permutation_refl.
    + apply perm_trans with (y :: x :: t).
      * apply perm_skip. exact IH.
      * apply perm_swap.
Qed.

Lemma sort_by_perm (l : list A) : Permutation (sort_by leb l) l.
Proof.
  induction l as [| x t IH]; simpl.
  - apply perm_nil.
  - apply perm_trans with (x :: sort_by leb t).
    + apply insert_by_perm.
    + apply perm_skip. exact IH.
Qed.

Lemma sort_by_length (l : list A) :
  List.length (sort_by leb l) = List.length l.
Proof. apply Permutation_length, sort_by_perm. Qed.

Lemma sort_by_In (x : A) (l : list A) : In x (sort_by leb l) <-> In x l.
Proof.
  split; apply Permutation_in.
  - apply sort_by_perm.
  - apply Permutation_sym, sort_by_perm.
Qed.

Lemma combine_seq_length (B : Type) (a : nat) (l : list B) :
  List.length (combine (seq a (List.length l)) l) = List.length l.
Proof. rewrite length_combine, length_seq. apply Nat.min_id. Qed.

Lemma combine_length_same (B C : Type) (f : nat -> C) (a : nat) (l : list B) :
  List.length (combine l (map f (seq a (List.length l)))) = List.length l.
Proof. rewrite length_combine, length_map, length_seq. apply Nat.min_id. Qed.

End ListFacts.

Lemma rows_fold_union (t : list DataFrame) (x : DataFrame) :
  rows (fold_left df_union t x) = rows x ++ List.concat (map rows t).
Proof.
  revert x. induction t as [| y t IH]; intro x; simpl.
  - symmetry. apply app_nil_r.
  - rewrite IH. simpl. symmetry. apply app_assoc.
Qed.

Lemma columns_fold_union (t : list DataFrame) (x : DataFrame) :
  columns (fold_left df_union t x) = columns x.
Proof.
  revert x. induction t as [| y t IH]; intro x; simpl.
  - reflexivity.
  - rewrite IH. reflexivity.
Qed.

Lemma length_rows_with_row_number (d : DataFrame) :
  List.length (rows (with_row_number d)) = List.length (rows d).
Proof.
  unfold with_row_number. simpl. rewrite length_map.
  apply combine_seq_length.
Qed.

Lemma length_concat_sum (B : Type) (ls : list (list B)) :
  List.length (List.concat ls) = list_sum (map (@List.length B) ls).
Proof.
  induction ls as [| l ls IH]; simpl.
  - reflexivity.
  - rewrite length_app, IH. reflexivity.
Qed.

(** ** The shape of the result *)

Section Shape.

Variable E : Engine.
Variable rnd : Randomness.
Variable d : DataFrame.
Variable c : SmoteConfig.

Lemma length_rows_df_vec_modified (i : nat) :
  List.length (rows (df_vec_modified E rnd d c i))
  = List.length (df_random_sel E rnd d c i).
Proof.
  unfold df_vec_modified. cbn [rows]. rewrite length_map.
  apply combine_seq_length.
Qed.

Lemma length_rows_sort_rand (x : DataFrame) :
  List.length (rows (sort_rand E c x)) = List.length (rows x).
Proof.
  unfold sort_rand. simpl.
  rewrite length_map, sort_by_length. apply combine_length_same.
Qed.

Lemma length_rows_oversampled (b : DataFrame) :
  List.length (rows (oversampled_df E d c b))
  = (List.length (rows b) + List.length (rows (dataInput_min d c))
     + List.length (rows (dataInput_maj d c)))%nat.
Proof.
  unfold oversampled_df. unfold df_union at 1. cbn [rows].
  rewrite length_app. unfold df_select at 1. cbn [rows].
  rewrite length_map. unfold dfunion.
  rewrite !length_rows_with_row_number, length_rows_sort_rand.
  unfold df_union, df_select. cbn [rows].
  rewrite length_app, length_map. reflexivity.
Qed.

Lemma column_types_checks :
  column_types d ->
  existsb label_is_vector (rows d) = false
  /\ existsb features_is_number (rows d) = false.
Proof.
  intros [n H]. split.
  - destruct (existsb label_is_vector (rows d)) eqn:He; [| reflexivity].
    apply existsb_exists in He. destruct He as (r & Hr & Hv).
    destruct (H r Hr) as [H1 _]. congruence.
  - destruct (existsb features_is_number (rows d)) eqn:He; [| reflexivity].
    apply existsb_exists in He. destruct He as (r & Hr & Hv).
    destruct (H r Hr) as [_ (v & H2 & _)]. unfold features_is_number in Hv.
    rewrite H2 in Hv. discriminate.
Qed.

Lemma named_columns_checks :
  named_columns d ->
  mem "label" (columns d) = true
  /\ mem "features_for_model" (columns (dataInput_min d c)) = true
  /\ mem "hashes" (columns (dataInput_min d c)) = false.
Proof.
  intros (Hl & Hf & _ & Hh & _). split; [| split].
  - apply existsb_exists. exists "label". split; [exact Hl |].
    apply String.eqb_refl.
  - apply existsb_exists. exists "features_for_model".
    split; [exact Hf | apply String.eqb_refl].
  - destruct (mem "hashes" (columns (dataInput_min d c))) eqn:He;
      [| reflexivity].
    apply existsb_exists in He. destruct He as (x & Hx & He).
    apply String.eqb_eq in He. subst x. contradiction.
Qed.

Lemma fit_succeeds_label : fit_succeeds d c -> In "label" (columns d).
Proof. intros ((H & _) & _). exact H. Qed.

Lemma fit_succeeds_features :
  fit_succeeds d c -> In "features_for_model" (columns d).
Proof. intros ((_ & H & _) & _). exact H. Qed.

Lemma fit_succeeds_types : fit_succeeds d c -> column_types d.
Proof. intros (_ & H & _). exact H. Qed.

Lemma fit_succeeds_checks :
  fit_succeeds d c ->
  mem "label" (columns d) = true
  /\ existsb label_is_vector (rows d) = false
  /\ brp_fit d c = Ok tt.
Proof.
  intros (Hn & Ht & Hne).
  destruct (column_types_checks Ht) as [Ht1 Ht2].
  destruct (named_columns_checks Hn) as (Hl & Hf & Hh).
  split; [exact Hl |]. split; [exact Ht1 |].
  unfold brp_fit. rewrite Hf, Ht2, Hh. cbn [negb].
  destruct (rows (dataInput_min d c)) as [| r l] eqn:Hr; [congruence |].
  assert (Hin : In r (rows d)).
  { assert (H : In r (rows (dataInput_min d c)))
      by (rewrite Hr; left; reflexivity).
    unfold dataInput_min, df_filter in H. cbn [rows] in H.
    apply filter_In in H. tauto. }
  destruct Ht as [n Ht]. destruct (Ht r Hin) as [_ (v & Hv & _)].
  rewrite Hv. reflexivity.
Qed.

(** With a frame that passes the fit and at least one batch, [smote]
    returns; the batches are the rows of [res] in order. *)
Lemma smote_returns :
  fit_succeeds d c ->
  1 <= multiplier c ->
  exists b,
    reduce df_union (res E rnd d c) = Ok b
    /\ columns b = synthetic_columns d c
    /\ rows b = List.concat (map rows (res E rnd d c))
    /\ smote E rnd d c
       = Ok (df_drop ["row_number"]
               (sort_row_number (oversampled_df E d c b))).
Proof.
  intros Hfit Hm. destruct (fit_succeeds_checks Hfit) as (Hl & Ht & Hf).
  unfold smote. rewrite Hl, Ht, Hf. cbn [negb]. unfold res.
  destruct (Z.to_nat (multiplier c)) as [| n] eqn:Hn; [lia |].
  cbn [seq map reduce].
  eexists. split; [reflexivity |]. split; [| split].
  - rewrite columns_fold_union. reflexivity.
  - rewrite rows_fold_union. reflexivity.
  - reflexivity.
Qed.

Lemma smote_length :
  fit_succeeds d c ->
  1 <= multiplier c ->
  exists out,
    smote E rnd d c = Ok out
    /\ List.length (rows out)
       = (list_sum (batch_sizes E rnd d c) + List.length (rows (dataInput_min d c))
          + List.length (rows (dataInput_maj d c)))%nat.
Proof.
  intros Hfit Hm. destruct (smote_returns Hfit Hm) as (b & _ & _ & Hr & Hs).
  eexists. split; [exact Hs |].
  unfold df_drop, sort_row_number. cbn [rows].
  rewrite length_map, sort_by_length, length_rows_oversampled.
  rewrite Hr, length_concat_sum. unfold res, batch_sizes.
  rewrite !map_map.
  f_equal. f_equal. f_equal. apply map_ext. intro i.
  apply length_rows_df_vec_modified.
Qed.

End Shape.

(** ** Comparisons of rationals *)

Lemma Qc_ltb_lt (x y : Qc) : Qc_ltb x y = true <-> (x < y)%Qc.
Proof.
  unfold Qc_ltb, Qclt. rewrite negb_true_iff.
  split.
  - intro H. apply Qnot_le_lt. intro Hle.
    apply Qle_bool_iff in Hle. congruence.
  - intro H. destruct (Qle_bool y x) eqn:Hb; [| reflexivity].
    apply Qle_bool_iff in Hb. exfalso. exact (Qlt_not_le _ _ H Hb).
Qed.

Lemma Qc_eqb_eq (x y : Qc) : Qc_eqb x y = true <-> x = y.
Proof.
  unfold Qc_eqb. rewrite Qeq_bool_iff. split.
  - apply Qc_is_canon.
  - intros ->. apply Qeq_refl.
Qed.


Lemma Qc_max_cases (x y : Qc) : Qc_max x y = x \/ Qc_max x y = y.
Proof. unfold Qc_max. destruct (Qc_leb x y); auto. Qed.

Lemma max_of_In (x : Qc) (t : list Qc) : In (max_of (x :: t)) (x :: t).
Proof.
  simpl. revert x. induction t as [| y t IH]; intro x; simpl.
  - left. reflexivity.
  - destruct (IH (Qc_max x y)) as [H | H].
    + rewrite <- H. destruct (Qc_max_cases x y) as [Hm | Hm]; rewrite Hm; auto.
    + right. right. exact H.
Qed.

(** In a list without repetition one element equals the maximum. *)
Lemma count_eq_NoDup (m : Qc) (l : list Qc) :
  NoDup l -> In m l ->
  List.length (filter (fun x => Qc_eqb x m) l) = 1%nat.
Proof.
  induction 1 as [| x l Hx Hl IH]; intro Hin; simpl.
  - contradiction.
  - destruct (Qc_eqb x m) eqn:Hb.
    + apply Qc_eqb_eq in Hb. subst x. simpl. f_equal.
      rewrite (proj2 (length_zero_iff_nil _)); [reflexivity |].
      destruct (filter (fun x => Qc_eqb x m) l) as [| y t] eqn:Hf;
        [reflexivity |].
      assert (Hy : In y (filter (fun x => Qc_eqb x m) l))
        by (rewrite Hf; left; reflexivity).
      apply filter_In in Hy. destruct Hy as [Hy1 Hy2].
      apply Qc_eqb_eq in Hy2. subst y. contradiction.
    + destruct Hin as [Heq | Hin].
      * subst x. assert (Qc_eqb m m = true) by (apply Qc_eqb_eq; reflexivity).
        congruence.
      * apply IH. exact Hin.
Qed.

Lemma count_max_NoDup (l : list Qc) :
  l <> [] -> NoDup l ->
  List.length (filter (fun x => Qc_eqb x (max_of l)) l) = 1%nat.
Proof.
  intros Hne Hnd. apply count_eq_NoDup; [exact Hnd |].
  destruct l as [| x t]; [congruence |]. apply max_of_In.
Qed.

(** ** Groups of a window *)

Lemma Row_eqb_eq (r s : Row) : Row_eqb r s = true <-> r = s.
Proof.
  unfold Row_eqb. destruct (Row_eq_dec r s); split; congruence.
Qed.

Section Groups.

Variable A : Type.
Variable key : A -> Row.

Lemma partitionBy_In (g : list A) (l : list A) :
  In g (partitionBy key l) ->
  exists a, In a (map key l)
            /\ g = filter (fun x => Row_eqb (key x) a) l.
Proof.
  unfold partitionBy. intro H. apply in_map_iff in H.
  destruct H as (a & Hg & Ha). exists a. split.
  - apply nodup_In in Ha. exact Ha.
  - symmetry. exact Hg.
Qed.

Lemma partitionBy_nonempty (g : list A) (l : list A) :
  In g (partitionBy key l) -> g <> [].
Proof.
  intro H. destruct (partitionBy_In _ _ H) as (a & Ha & ->).
  apply in_map_iff in Ha. destruct Ha as (x & Hx & Hin).
  intro Hnil.
  assert (Hf : In x (filter (fun y => Row_eqb (key y) a) l)).
  { apply filter_In. split; [exact Hin |]. apply Row_eqb_eq. exact Hx. }
  rewrite Hnil in Hf. contradiction.
Qed.

Lemma partitionBy_sub (g : list A) (l : list A) (x : A) :
  In g (partitionBy key l) -> In x g -> In x l.
Proof.
  intros H Hx. destruct (partitionBy_In _ _ H) as (a & _ & ->).
  apply filter_In in Hx. tauto.
Qed.

Lemma partitionBy_group_of (l : list A) (x : A) :
  In x l ->
  In (filter (fun y => Row_eqb (key y) (key x)) l) (partitionBy key l).
Proof.
  intro H. unfold partitionBy.
  apply in_map_iff. exists (key x). split; [reflexivity |].
  apply nodup_In. apply in_map. exact H.
Qed.

Lemma partitionBy_length (l : list A) :
  List.length (partitionBy key l)
  = List.length (nodup Row_eq_dec (map key l)).
Proof. unfold partitionBy. apply length_map. Qed.

End Groups.

(** ** The neighbour index *)

Section Index.

Variable E : Engine.
Variable d : DataFrame.
Variable c : SmoteConfig.

Lemma approxSimilarityJoin_In (a b : list Row) (p : Pair) :
  In p (approxSimilarityJoin E c a b) <->
  In (datasetA p) a /\ In (datasetB p) b
  /\ model E c (features_of (datasetA p)) = model E c (features_of (datasetB p))
  /\ EuclideanDistance p
     = keyDistance E (features_of (datasetA p)) (features_of (datasetB p)).
Proof.
  unfold approxSimilarityJoin. rewrite in_map_iff. split.
  - intros ([x y] & Hp & Hin). subst p. simpl.
    apply nodup_In in Hin. apply filter_In in Hin. simpl in Hin.
    destruct Hin as [Hprod Hb]. apply in_prod_iff in Hprod.
    apply Z.eqb_eq in Hb. tauto.
  - intros (Ha & Hb & Hm & Hd). exists (datasetA p, datasetB p). split.
    + simpl. destruct p as [x y e]. simpl in *. subst e. reflexivity.
    + apply nodup_In. apply filter_In. split.
      * apply in_prod; assumption.
      * simpl. apply Z.eqb_eq. exact Hm.
Qed.

Lemma self_join_w_distance_In (p : Pair) :
  In p (self_join_w_distance E d c) <->
  In p (approxSimilarityJoin E c (rows (dataInput_min d c))
                             (rows (dataInput_min d c)))
  /\ (Q2Qc 0 < EuclideanDistance p)%Qc.
Proof.
  unfold self_join_w_distance. rewrite filter_In, Qc_ltb_lt. tauto.
Qed.

(** The rows of the ranked frame are rows of the join, numbered from 1. *)
Lemma self_similarity_df_In (p : Pair) (n : Z) :
  In (p, n) (self_similarity_df E d c) ->
  In p (self_join_w_distance E d c) /\ 1 <= n.
Proof.
  unfold self_similarity_df. rewrite in_flat_map.
  intros (g & Hg & Hin). split.
  - apply in_combine_l in Hin. apply sort_by_In in Hin.
    eapply partitionBy_sub; eassumption.
  - apply in_combine_r in Hin. apply in_map_iff in Hin.
    destruct Hin as (m & <- & Hm). apply in_seq in Hm. lia.
Qed.

(** Every source of the join has a row of rank 1. *)
Lemma self_similarity_df_first (p : Pair) :
  In p (self_join_w_distance E d c) ->
  exists p0, In (p0, 1) (self_similarity_df E d c)
             /\ datasetA p0 = datasetA p.
Proof.
  intro Hp. unfold self_similarity_df.
  pose proof (partitionBy_group_of datasetA _ _ Hp) as Hg.
  set (g := filter (fun y => Row_eqb (datasetA y) (datasetA p))
                   (self_join_w_distance E d c)) in *.
  assert (Hpg : In p g).
  { apply filter_In. split; [exact Hp |]. apply Row_eqb_eq. reflexivity. }
  set (leb := fun p q : Pair =>
                Qc_leb (EuclideanDistance p) (EuclideanDistance q)).
  destruct (sort_by leb g) as [| p0 t] eqn:Hs.
  - apply (sort_by_In leb) in Hpg. rewrite Hs in Hpg. contradiction.
  - exists p0. split.
    + apply in_flat_map. exists g. split; [exact Hg |].
      fold leb. rewrite Hs.
      destruct g as [| x g']; [contradiction |]. simpl. left. reflexivity.
    + assert (Hin : In p0 g).
      { apply (sort_by_In leb). rewrite Hs. left. reflexivity. }
      apply filter_In in Hin. destruct Hin as [_ Hin].
      apply Row_eqb_eq in Hin. exact Hin.
Qed.

Lemma self_similarity_df_selected_In (p : Pair) (n : Z) :
  In (p, n) (self_similarity_df_selected E d c) <->
  In (p, n) (self_similarity_df E d c) /\ n <= k c.
Proof.
  unfold self_similarity_df_selected. rewrite filter_In. simpl.
  rewrite Z.leb_le. tauto.
Qed.

(** No candidate is left when [k] is below 1. *)
Lemma self_similarity_df_selected_nil :
  k c < 1 -> self_similarity_df_selected E d c = [].
Proof.
  intro Hk. destruct (self_similarity_df_selected E d c) as [| [p n] t] eqn:H;
    [reflexivity |].
  assert (Hin : In (p, n) (self_similarity_df_selected E d c))
    by (rewrite H; left; reflexivity).
  apply self_similarity_df_selected_In in Hin. destruct Hin as [Hin Hle].
  apply self_similarity_df_In in Hin. lia.
Qed.

End Index.

(** ** The selection of one neighbour per source *)

Lemma map_fst_combine_seq (B C : Type) (f : nat -> C) (a : nat) (l : list B) :
  map fst (combine l (map f (seq a (List.length l)))) = l.
Proof.
  revert a. induction l as [| x l IH]; intro a; simpl.
  - reflexivity.
  - rewrite IH. reflexivity.
Qed.

Lemma map_snd_combine_seq (B C : Type) (f : nat -> C) (a : nat) (l : list B) :
  map snd (combine l (map f (seq a (List.length l))))
  = map f (seq a (List.length l)).
Proof.
  revert a. induction l as [| x l IH]; intro a; simpl.
  - reflexivity.
  - rewrite IH. reflexivity.
Qed.

Lemma filter_flat_map (B C : Type) (f : C -> bool) (h : B -> list C)
      (l : list B) :
  filter f (flat_map h l) = flat_map (fun x => filter f (h x)) l.
Proof.
  induction l as [| x l IH]; simpl.
  - reflexivity.
  - rewrite filter_app, IH. reflexivity.
Qed.

Lemma NoDup_map_filter (B C : Type) (f : B -> C) (P : B -> bool)
      (l : list B) :
  NoDup (map f l) -> NoDup (map f (filter P l)).
Proof.
  induction l as [| x l IH]; simpl; intro H.
  - constructor.
  - inversion H as [| y t Hn Hd]; subst. destruct (P x); simpl.
    + constructor; [| apply IH; exact Hd].
      intro Hin. apply Hn. apply in_map_iff in Hin.
      destruct Hin as (z & Hz & Hin). apply filter_In in Hin.
      apply in_map_iff. exists z. tauto.
    + apply IH. exact Hd.
Qed.

Lemma list_sum_ones (B : Type) (f : B -> nat) (l : list B) :
  (forall x, In x l -> f x = 1%nat) ->
  list_sum (map f l) = List.length l.
Proof.
  induction l as [| x l IH]; simpl; intro H.
  - reflexivity.
  - rewrite (H x (or_introl eq_refl)), IH; [reflexivity |].
    intros y Hy. apply H. right. exact Hy.
Qed.

Section Selection.

Variable E : Engine.
Variable rnd : Randomness.
Variable d : DataFrame.
Variable c : SmoteConfig.

(** The selected pairs of a batch are candidates of the index. *)
Lemma df_random_sel_In (i : nat) (p : Pair) :
  In p (df_random_sel E rnd d c i) ->
  exists n, In (p, n) (self_similarity_df_selected E d c).
Proof.
  unfold df_random_sel. intro H. apply in_map_iff in H.
  destruct H as ([[[p' n] r] m] & Hp & Hin). simpl in Hp. subst p'.
  apply filter_In in Hin. destruct Hin as [Hin _].
  apply in_flat_map in Hin. destruct Hin as (g & Hg & Hin).
  apply in_map_iff in Hin. destruct Hin as (y & Hy & Hin).
  inversion Hy; subst. exists n.
  pose proof (partitionBy_sub _ _ _ _ Hg Hin) as Hw.
  apply in_combine_l in Hw. exact Hw.
Qed.

Lemma df_random_sel_nil (i : nat) :
  self_similarity_df_selected E d c = [] -> df_random_sel E rnd d c i = [].
Proof.
  intro H. unfold df_random_sel. rewrite H. reflexivity.
Qed.

(** Without ties, a batch has one pair for each source of the index. *)
Lemma df_random_sel_length (i : nat) :
  (forall j1 j2, rand rnd i j1 = rand rnd i j2 -> j1 = j2) ->
  List.length (df_random_sel E rnd d c i)
  = List.length
      (nodup Row_eq_dec
             (map (fun x => datasetA (fst x))
                  (self_similarity_df_selected E d c))).
Proof.
  intro Hinj. unfold df_random_sel.
  set (sel := self_similarity_df_selected E d c).
  set (W := combine sel (map (rand rnd i) (seq 0 (List.length sel)))).
  set (key := fun x : Pair * Z * Qc => datasetA (fst (fst x))).
  rewrite length_map, filter_flat_map, length_flat_map.
  rewrite list_sum_ones.
  - rewrite partitionBy_length. f_equal. f_equal.
    unfold key. rewrite <- (map_map fst (fun x => datasetA (fst x))).
    unfold W. rewrite map_fst_combine_seq. reflexivity.
  - intros g Hg.
    rewrite filter_map_swap, length_map. simpl.
    rewrite <- (length_map snd).
    rewrite <- (filter_map_swap (fun v => Qc_eqb v (max_of (map snd g))) snd).
    apply count_max_NoDup.
    + pose proof (partitionBy_nonempty _ _ Hg) as Hne.
      destruct g; [congruence | discriminate].
    + destruct (partitionBy_In _ _ _ Hg) as (a & _ & ->).
      apply NoDup_map_filter. unfold W. rewrite map_snd_combine_seq.
      apply NoDup_map_NoDup_ForallPairs; [| apply seq_NoDup].
      intros x y _ _. apply Hinj.
Qed.

End Selection.

(** ** The number of rows *)

Section RowCount.

Variable E : Engine.
Variable rnd : Randomness.
Variable d : DataFrame.
Variable c : SmoteConfig.

(** With [k >= 1], the sources of the index are the minority rows that
    have a candidate. *)
Lemma sources_of_index :
  1 <= k c ->
  NoDup (rows (dataInput_min d c)) ->
  every_source_has_candidate E d c ->
  Permutation
    (nodup Row_eq_dec
           (map (fun x => datasetA (fst x))
                (self_similarity_df_selected E d c)))
    (rows (dataInput_min d c)).
Proof.
  intros Hk Hnd Hcand. apply NoDup_Permutation.
  - apply NoDup_nodup.
  - exact Hnd.
  - intro a. rewrite nodup_In, in_map_iff. split.
    + intros ([p n] & Ha & Hin). simpl in Ha. subst a.
      apply self_similarity_df_selected_In in Hin. destruct Hin as [Hin _].
      apply self_similarity_df_In in Hin. destruct Hin as [Hin _].
      apply self_join_w_distance_In in Hin. destruct Hin as [Hin _].
      apply approxSimilarityJoin_In in Hin. tauto.
    + intro Ha. destruct (Hcand a Ha) as (b & Hb & Hm & Hd).
      set (p := mkPair a b (keyDistance E (features_of a) (features_of b))).
      assert (Hp : In p (self_join_w_distance E d c)).
      { apply self_join_w_distance_In. split; [| exact Hd].
        apply approxSimilarityJoin_In. simpl. tauto. }
      destruct (self_similarity_df_first _ _ _ _ Hp) as (p0 & H0 & Hsrc).
      exists (p0, 1). split; [exact Hsrc |].
      apply self_similarity_df_selected_In. split; [exact H0 | exact Hk].
Qed.

Lemma list_sum_const (n : nat) (l : list nat) :
  (forall x, In x l -> x = n) -> list_sum l = (List.length l * n)%nat.
Proof.
  induction l as [| x l IH]; simpl; intro H.
  - reflexivity.
  - rewrite (H x (or_introl eq_refl)), IH; [reflexivity |].
    intros y Hy. apply H. right. exact Hy.
Qed.


End RowCount.

Lemma sample_columns_named (l : list Row) :
  named_columns (mkDataFrame sample_columns l).
Proof.
  unfold named_columns, sample_columns, join_columns. cbn [columns].
  split; [simpl; tauto |]. split; [simpl; tauto |]. split; [| split].
  - repeat constructor; simpl; intuition discriminate.
  - simpl. intuition discriminate.
  - intros x Hx Hin. simpl in Hx, Hin.
    repeat (destruct Hx as [<- | Hx]; [intuition discriminate |]).
    contradiction.
Qed.

Lemma frame_AB_C_fit : forall k_ m_, fit_succeeds frame_AB_C (config k_ m_).
Proof.
  intros k_ m_. split; [apply sample_columns_named |].
  split; [| simpl; discriminate].
  exists 2%nat. intros r Hr. simpl in Hr.
  repeat (destruct Hr as [<- | Hr];
          [split; [reflexivity | eexists; split; reflexivity] |]).
  contradiction.
Qed.

Lemma frame_three_labels_fit :
  forall k_ m_, fit_succeeds frame_three_labels (config k_ m_).
Proof.
  intros k_ m_. split; [apply sample_columns_named |].
  split; [| simpl; discriminate].
  exists 2%nat. intros r Hr. simpl in Hr.
  repeat (destruct Hr as [<- | Hr];
          [split; [reflexivity | eexists; split; reflexivity] |]).
  contradiction.
Qed.

Lemma frame_one_minority_fit :
  forall k_ m_, fit_succeeds frame_one_minority (config k_ m_).
Proof.
  intros k_ m_. split; [apply sample_columns_named |].
  split; [| simpl; discriminate].
  exists 2%nat. intros r Hr. simpl in Hr.
  repeat (destruct Hr as [<- | Hr];
          [split; [reflexivity | eexists; split; reflexivity] |]).
  contradiction.
Qed.

Lemma frame_one_minority_types : column_types frame_one_minority.
Proof.
  exists 2%nat. intros r Hr. simpl in Hr.
  repeat (destruct Hr as [<- | Hr];
          [split; [reflexivity | eexists; split; reflexivity] |]).
  contradiction.
Qed.

Lemma distinct_draws_no_ties : no_ties distinct_draws.
Proof.
  intros i j1 j2 H. unfold distinct_draws, q in H. simpl in H.
  apply Q2Qc_eq_iff in H. unfold Qeq in H. simpl in H.
  assert (Hp : Pos.of_nat (j1 + 2) = Pos.of_nat (j2 + 2)) by lia.
  apply Nat2Pos.inj in Hp; lia.
Qed.



(** ** The columns of a synthetic row *)

Lemma mem_In (x : string) (cs : list string) : mem x cs = true <-> In x cs.
Proof.
  unfold mem. rewrite existsb_exists. split.
  - intros (y & Hy & He). apply String.eqb_eq in He. subst y. exact Hy.
  - intro H. exists x. split; [exact H | apply String.eqb_refl].
Qed.

Lemma get_app (x : string) (r s : Row) :
  get x (r ++ s) = match get x r with Some v => Some v | None => get x s end.
Proof.
  induction r as [| [y v] r IH]; simpl.
  - reflexivity.
  - destruct (String.eqb x y); [reflexivity | exact IH].
Qed.

Lemma get_None (x : string) (r : Row) :
  get x r = None <-> ~ In x (map fst r).
Proof.
  induction r as [| [y v] r IH]; simpl.
  - tauto.
  - destruct (String.eqb x y) eqn:He.
    + apply String.eqb_eq in He. subst y. split; [discriminate | tauto].
    + apply String.eqb_neq in He. rewrite IH. split.
      * intros H [H1 | H1]; [congruence | tauto].
      * tauto.
Qed.

Lemma get_withColumn_other (x y : string) (v : Value) (r : Row) :
  x <> y -> get y (withColumn x v r) = get y r.
Proof.
  intro Hne. unfold withColumn. destruct (mem x (map fst r)).
  - induction r as [| [z w] r IH]; simpl.
    + reflexivity.
    + destruct (String.eqb z x) eqn:Hz; simpl.
      * apply String.eqb_eq in Hz. subst z.
        assert (Hyx : String.eqb y x = false)
          by (apply String.eqb_neq; congruence).
        rewrite Hyx. exact IH.
      * destruct (String.eqb y z); [reflexivity | exact IH].
  - rewrite get_app. simpl.
    assert (Hyx : String.eqb y x = false)
      by (apply String.eqb_neq; congruence).
    rewrite Hyx. destruct (get y r); reflexivity.
Qed.

Lemma get_withColumn_same (x : string) (v : Value) (r : Row) :
  get x (withColumn x v r) = Some v.
Proof.
  unfold withColumn. destruct (mem x (map fst r)) eqn:Hm.
  - apply mem_In in Hm. induction r as [| [z w] r IH]; simpl in *.
    + contradiction.
    + destruct (String.eqb z x) eqn:Hz; simpl.
      * rewrite String.eqb_refl. reflexivity.
      * rewrite String.eqb_sym, Hz. apply IH.
        apply String.eqb_neq in Hz. destruct Hm; [congruence | assumption].
  - rewrite get_app.
    assert (Hn : get x r = None).
    { apply get_None. intro H. apply mem_In in H. congruence. }
    rewrite Hn. simpl. rewrite String.eqb_refl. reflexivity.
Qed.

Lemma get_drop (x : string) (cs : list string) (r : Row) :
  mem x cs = false -> get x (drop cs r) = get x r.
Proof.
  intro Hm. unfold drop. induction r as [| [y v] r IH]; simpl.
  - reflexivity.
  - destruct (String.eqb x y) eqn:He.
    + apply String.eqb_eq in He. subst y. rewrite Hm. simpl.
      rewrite String.eqb_refl. reflexivity.
    + destruct (negb (mem y cs)); simpl; [rewrite He |]; exact IH.
Qed.


Section Synthetic.

Variable E : Engine.
Variable rnd : Randomness.
Variable d : DataFrame.
Variable c : SmoteConfig.

(** A turn of the column loop changes the column of that turn only, and
    never the feature vector. *)
Lemma get_inherit_column_other (i : nat) (p : Pair) (acc : Row)
      (jc : nat * string) (x : string) :
  x <> snd jc \/ x = "features_for_model" ->
  get x (inherit_column rnd i p acc jc) = get x acc.
Proof.
  intro H. unfold inherit_column.
  destruct (String.eqb (snd jc) "features_for_model") eqn:He; simpl.
  - reflexivity.
  - destruct (F_col (choice rnd i (fst jc)) (snd jc) p); [| reflexivity].
    apply get_withColumn_other. apply String.eqb_neq in He.
    destruct H as [H | H]; congruence.
Qed.

Lemma get_fold_inherit_other (i : nat) (p : Pair) (x : string)
      (l : list (nat * string)) (acc : Row) :
  (forall jc, In jc l -> x <> snd jc \/ x = "features_for_model") ->
  get x (fold_left (inherit_column rnd i p) l acc) = get x acc.
Proof.
  revert acc. induction l as [| jc l IH]; intros acc H; simpl.
  - reflexivity.
  - rewrite IH.
    + apply get_inherit_column_other. apply H. left. reflexivity.
    + intros jc' Hin. apply H. right. exact Hin.
Qed.

Lemma get_features_synthetic_row (i : nat) (u : Qc) (p : Pair) :
  get "features_for_model" (synthetic_row rnd d c i u p)
  = Some (VVec (new_features u p)).
Proof.
  unfold synthetic_row. rewrite get_drop by reflexivity.
  rewrite get_fold_inherit_other.
  - reflexivity.
  - intros jc _. right. reflexivity.
Qed.

Lemma zipWith_segment (u : Qc) (a b : list Qc) :
  zipWith Qcplus b (map (Qcmult u) (zipWith Qcminus a b))
  = segment_point u a b.
Proof.
  unfold segment_point. revert b.
  induction a as [| x a IH]; intros [| y b]; simpl; try reflexivity.
  rewrite IH. reflexivity.
Qed.

Lemma new_features_segment (u : Qc) (p : Pair) :
  new_features u p
  = DenseVector (segment_point u (toArray (features_of (datasetA p)))
                                 (toArray (features_of (datasetB p)))).
Proof.
  unfold new_features, vec_diff, add_vector_fn, subtract_vector_fn. simpl.
  rewrite zipWith_segment. reflexivity.
Qed.

(** The rows of a batch are the synthetic rows of its selected pairs. *)
Lemma df_vec_modified_In (i : nat) (r : Row) :
  In r (rows (df_vec_modified E rnd d c i)) ->
  exists j p, In p (df_random_sel E rnd d c i)
              /\ r = synthetic_row rnd d c i (uniform rnd i j) p.
Proof.
  unfold df_vec_modified. cbn [rows]. intro H. apply in_map_iff in H.
  destruct H as ([j p] & Hr & Hin). cbn [fst snd] in Hr.
  exists j, p. split; [| congruence].
  apply in_combine_r in Hin. exact Hin.
Qed.

(** The pairs of a batch are pairs of minority rows of the join. *)
Lemma df_random_sel_join (i : nat) (p : Pair) :
  In p (df_random_sel E rnd d c i) ->
  In p (self_join_w_distance E d c).
Proof.
  intro H. apply df_random_sel_In in H. destruct H as (n & H).
  apply self_similarity_df_selected_In in H. destruct H as [H _].
  apply self_similarity_df_In in H. tauto.
Qed.

Lemma self_join_minority (p : Pair) :
  In p (self_join_w_distance E d c) ->
  In (datasetA p) (rows (dataInput_min d c))
  /\ In (datasetB p) (rows (dataInput_min d c)).
Proof.
  intro H. apply self_join_w_distance_In in H. destruct H as [H _].
  apply approxSimilarityJoin_In in H. tauto.
Qed.


End Synthetic.

Lemma distinct_draws_uniform_in_range : uniform_in_range distinct_draws.
Proof.
  intros i j. split.
  - vm_compute. discriminate.
  - vm_compute. reflexivity.
Qed.



(** ** Self-pairs *)

Section SelfPairs.

Variable E : Engine.
Variable rnd : Randomness.
Variable d : DataFrame.
Variable c : SmoteConfig.

Hypothesis distance_self : distance_zero_on_equal E.

Lemma self_join_proper (p : Pair) :
  In p (self_join_w_distance E d c) -> proper_pair p.
Proof.
  intro H. apply self_join_w_distance_In in H. destruct H as [Hj Hd].
  split; [| exact Hd].
  intro Heq. apply approxSimilarityJoin_In in Hj.
  destruct Hj as (_ & _ & _ & He).
  rewrite Heq, distance_self in He. rewrite He in Hd.
  exact (Qlt_irrefl _ Hd).
Qed.

(** C7.  Every pair that is ranked, and every pair selected in a batch, is a
    pair of two different rows at a strictly positive distance: the pairs at
    distance 0, the self-pairs among them, are removed before the ranking. *)
Theorem neighbour_is_not_source :
  (forall p n, In (p, n) (self_similarity_df E d c) -> proper_pair p)
  /\ (forall i p, In p (df_random_sel E rnd d c i) -> proper_pair p).
Proof.
  split.
  - intros p n H. apply self_similarity_df_In in H.
    apply self_join_proper. tauto.
  - intros i p H. apply self_join_proper.
    apply df_random_sel_join with (rnd := rnd) (i := i). exact H.
Qed.

End SelfPairs.

Lemma squared_distance_self : distance_zero_on_equal first_coordinate_engine.
Proof.
  intro v. simpl. unfold squared_distance.
  induction (toArray v) as [| x a IH]; simpl.
  - reflexivity.
  - rewrite IH. ring.
Qed.

Lemma neighbour_is_not_source_witness :
  (forall p n,
      In (p, n) (self_similarity_df first_coordinate_engine frame_AB_C
                                    (config 1 1)) -> proper_pair p)
  /\ (forall i p,
         In p (df_random_sel first_coordinate_engine distinct_draws
                             frame_AB_C (config 1 1) i) -> proper_pair p).
Proof.
  apply (@neighbour_is_not_source first_coordinate_engine distinct_draws
           frame_AB_C (config 1 1)).
  exact squared_distance_self.
Defined.


(** ** Sorting *)

Section SortFacts.

Variable A : Type.
Variable leb : A -> A -> bool.

Hypothesis leb_total : forall x y, leb x y = true \/ leb y x = true.
Hypothesis leb_trans :
  forall x y z, leb x y = true -> leb y z = true -> leb x z = true.

Let R (x y : A) : Prop := leb x y = true.

Lemma insert_by_Forall (P : A -> Prop) (x : A) (l : list A) :
  P x -> Forall P l -> Forall P (insert_by leb x l).
Proof.
  intros Hx Hl. induction Hl as [| y t Hy Ht IH]; simpl.
  - constructor; [exact Hx | constructor].
  - destruct (leb x y).
    + constructor; [exact Hx |]. constructor; assumption.
    + constructor; assumption.
Qed.

Lemma insert_by_sorted (x : A) (l : list A) :
  StronglySorted R l -> StronglySorted R (insert_by leb x l).
Proof.
  induction 1 as [| y t Hs IH Hy]; simpl.
  - constructor; constructor.
  - destruct (leb x y) eqn:Hxy.
    + constructor.
      * constructor; assumption.
      * constructor; [exact Hxy |].
        eapply Forall_impl; [| exact Hy].
        intros z Hz. exact (leb_trans Hxy Hz).
    + constructor; [exact IH |].
      apply insert_by_Forall; [| exact Hy].
      destruct (leb_total x y) as [H | H]; [congruence | exact H].
Qed.

Lemma sort_by_sorted (l : list A) : StronglySorted R (sort_by leb l).
Proof.
  induction l as [| x t IH]; simpl.
  - constructor.
  - apply insert_by_sorted. exact IH.
Qed.

Lemma insert_by_least (x : A) (l : list A) :
  Forall (R x) l -> insert_by leb x l = x :: l.
Proof.
  intro H. destruct H as [| y t Hy Ht]; simpl.
  - reflexivity.
  - unfold R in Hy. rewrite Hy. reflexivity.
Qed.

(** A sorted list is left as it is. *)
Lemma sort_by_id (l : list A) : StronglySorted R l -> sort_by leb l = l.
Proof.
  induction 1 as [| x t Hs IH Hx]; simpl.
  - reflexivity.
  - rewrite IH. apply insert_by_least. exact Hx.
Qed.

Lemma filter_insert_by (P : A -> bool) (x : A) (l : list A) :
  StronglySorted R l ->
  filter P (insert_by leb x l)
  = if P x then insert_by leb x (filter P l) else filter P l.
Proof.
  induction 1 as [| y t Hs IH Hy]; simpl.
  - destruct (P x); reflexivity.
  - destruct (leb x y) eqn:Hxy; simpl.
    + destruct (P x) eqn:Hpx; [| reflexivity].
      symmetry. apply insert_by_least.
      assert (Hall : Forall (R x) (y :: t)).
      { constructor; [exact Hxy |].
        eapply Forall_impl; [| exact Hy].
        intros z Hz. exact (leb_trans Hxy Hz). }
      change (Forall (R x) (filter P (y :: t))).
      apply Forall_forall. intros z Hz. apply filter_In in Hz.
      rewrite Forall_forall in Hall. apply Hall. tauto.
    + rewrite IH. destruct (P y), (P x); simpl; try reflexivity.
      rewrite Hxy. reflexivity.
Qed.

(** The rows that satisfy a predicate keep, through the sort, the order the
    sort alone gives them. *)
Lemma filter_sort_by (P : A -> bool) (l : list A) :
  filter P (sort_by leb l) = sort_by leb (filter P l).
Proof.
  induction l as [| x t IH]; simpl.
  - reflexivity.
  - rewrite filter_insert_by by apply sort_by_sorted.
    rewrite IH. destruct (P x); reflexivity.
Qed.

End SortFacts.


(** ** Selected and dropped columns *)

Lemma get_select (x : string) (cs : list string) (r : Row) :
  get x (select cs r) = if mem x cs then get x r else None.
Proof.
  unfold select. induction cs as [| y cs IH]; simpl.
  - reflexivity.
  - rewrite get_app, IH. destruct (String.eqb x y) eqn:He; simpl.
    + apply String.eqb_eq in He. subst y.
      destruct (get x r) as [v |] eqn:Hg; simpl.
      * rewrite String.eqb_refl. reflexivity.
      * destruct (mem x cs); reflexivity.
    + destruct (get y r) as [v |]; simpl; [rewrite He |]; reflexivity.
Qed.

Lemma select_keys (cs : list string) (r : Row) (x : string) :
  In x (map fst (select cs r)) -> In x cs.
Proof.
  unfold select. induction cs as [| y cs IH]; simpl.
  - tauto.
  - rewrite map_app, in_app_iff. intros [H | H].
    + destruct (get y r); simpl in H; tauto.
    + right. apply IH. exact H.
Qed.

Lemma select_ext (cs : list string) (r s : Row) :
  (forall x, In x cs -> get x r = get x s) -> select cs r = select cs s.
Proof.
  unfold select. induction cs as [| y cs IH]; simpl; intro H.
  - reflexivity.
  - rewrite (H y (or_introl eq_refl)), IH; [reflexivity |].
    intros x Hx. apply H. right. exact Hx.
Qed.

Lemma drop_id (cs : list string) (r : Row) :
  (forall x, In x (map fst r) -> mem x cs = false) -> drop cs r = r.
Proof.
  unfold drop. induction r as [| [y v] r IH]; simpl; intro H.
  - reflexivity.
  - rewrite (H y (or_introl eq_refl)). simpl. rewrite IH; [reflexivity |].
    intros x Hx. apply H. right. exact Hx.
Qed.

Lemma drop_app (cs : list string) (r s : Row) :
  drop cs (r ++ s) = drop cs r ++ drop cs s.
Proof. unfold drop. apply filter_app. Qed.

Lemma has_label_withColumn (l : Z) (x : string) (v : Value) (r : Row) :
  x <> "label" -> has_label l (withColumn x v r) = has_label l r.
Proof.
  intro H. unfold has_label. rewrite get_withColumn_other by exact H.
  reflexivity.
Qed.

Lemma has_label_drop (l : Z) (cs : list string) (r : Row) :
  mem "label" cs = false -> has_label l (drop cs r) = has_label l r.
Proof.
  intro H. unfold has_label. rewrite get_drop by exact H. reflexivity.
Qed.

Lemma has_label_select (l : Z) (cs : list string) (r : Row) :
  In "label" cs -> has_label l (select cs r) = has_label l r.
Proof.
  intro H. unfold has_label. rewrite get_select.
  apply mem_In in H. rewrite H. reflexivity.
Qed.

Lemma has_label_unique (l m : Z) (r : Row) :
  has_label l r = true -> l <> m -> has_label m r = false.
Proof.
  unfold has_label. destruct (get "label" r) as [[n | v] |]; try discriminate.
  intros H Hne. apply Z.eqb_eq in H. apply Z.eqb_neq. congruence.
Qed.

Lemma withColumn_name_incl (x y : string) (cs : list string) :
  In y (withColumn_name x cs) <-> y = x \/ In y cs.
Proof.
  unfold withColumn_name. destruct (mem x cs) eqn:Hm.
  - apply mem_In in Hm. split; [tauto |]. intros [-> | H]; assumption.
  - rewrite in_app_iff. simpl. split; intros H; intuition congruence.
Qed.

Lemma withColumn_name_fresh (x : string) (cs : list string) :
  ~ In x cs -> withColumn_name x cs = cs ++ [x].
Proof.
  intro H. unfold withColumn_name. destruct (mem x cs) eqn:Hm.
  - apply mem_In in Hm. contradiction.
  - reflexivity.
Qed.

Section Columns.

Variable d : DataFrame.
Variable c : SmoteConfig.

Let add_name (cs : list string) (x : string) : list string :=
  if negb (String.eqb x "features_for_model")
  then withColumn_name x cs else cs.

Lemma fold_add_name_In (l init : list string) (y : string) :
  In y (fold_left add_name l init)
  <-> In y init \/ (In y l /\ y <> "features_for_model").
Proof.
  revert init. induction l as [| x l IH]; intro init; simpl.
  - tauto.
  - rewrite IH. unfold add_name.
    destruct (String.eqb x "features_for_model") eqn:He; simpl.
    + apply String.eqb_eq in He. subst x. intuition congruence.
    + apply String.eqb_neq in He. rewrite withColumn_name_incl.
      intuition congruence.
Qed.

Lemma synthetic_columns_In (y : string) :
  In y (synthetic_columns d c)
  <-> mem y join_columns = false
      /\ (y = "features_for_model" \/ In y (original_cols d c)).
Proof.
  unfold synthetic_columns, drop_names. rewrite filter_In.
  fold add_name. rewrite fold_add_name_In, negb_true_iff.
  split.
  - intros [[Hi | [Hi Hn]] Hm]; split; try assumption.
    + simpl in Hi.
      destruct Hi as [<- | [<- | [<- | [<- | [<- | []]]]]];
        try discriminate. left. reflexivity.
    + right. exact Hi.
  - intros [Hm [-> | Hi]]; split; try assumption.
    + left. simpl. tauto.
    + destruct (string_dec y "features_for_model") as [-> | Hn].
      * left. simpl. tauto.
      * right. split; assumption.
Qed.

End Columns.


(** ** The inherited columns of a synthetic row *)

Lemma combine_seq_app (B : Type) (a : nat) (l1 l2 : list B) :
  combine (seq a (List.length (l1 ++ l2))) (l1 ++ l2)
  = combine (seq a (List.length l1)) l1
    ++ combine (seq (a + List.length l1) (List.length l2)) l2.
Proof.
  revert a. induction l1 as [| x l1 IH]; intro a; simpl.
  - rewrite Nat.add_0_r. reflexivity.
  - rewrite IH. rewrite Nat.add_succ_r. reflexivity.
Qed.

Lemma In_enumerate (x : string) (l : list string) :
  In x l -> exists j, In (j, x) (enumerate l).
Proof.
  intro H. apply in_split in H. destruct H as (l1 & l2 & ->).
  exists (List.length l1). unfold enumerate. rewrite combine_seq_app.
  apply in_or_app. right. simpl. left. reflexivity.
Qed.

Section Inheritance.

Variable rnd : Randomness.
Variable d : DataFrame.
Variable c : SmoteConfig.
Variable i : nat.
Variable p : Pair.
Variable x : string.

Hypothesis x_not_features : x <> "features_for_model".

Let from_pair (acc : Row) : Prop :=
  get x acc = get x (datasetA p) \/ get x acc = get x (datasetB p).

Lemma F_col_cases (s : Side) :
  F_col s x p = get x (datasetA p) \/ F_col s x p = get x (datasetB p).
Proof. destruct s; [left | right]; reflexivity. Qed.

Lemma inherit_column_sets (acc : Row) (j : nat) :
  get x (inherit_column rnd i p acc (j, x))
  = match F_col (choice rnd i j) x p with
    | Some v => Some v
    | None => get x acc
    end.
Proof.
  unfold inherit_column. simpl.
  apply String.eqb_neq in x_not_features. rewrite x_not_features. simpl.
  destruct (F_col (choice rnd i j) x p).
  - apply get_withColumn_same.
  - reflexivity.
Qed.

Lemma inherit_column_keeps (acc : Row) (jc : nat * string) :
  get x acc = None \/ from_pair acc ->
  (snd jc = x \/ from_pair acc) ->
  from_pair (inherit_column rnd i p acc jc).
Proof.
  intros Hinv Hcase. destruct jc as [j y].
  destruct (string_dec y x) as [-> | Hne].
  - unfold from_pair. rewrite inherit_column_sets.
    destruct (F_col_cases (choice rnd i j)) as [Hs | Hs];
      destruct (F_col (choice rnd i j) x p) eqn:Hf.
    + left. congruence.
    + destruct Hinv as [Hn | Hp]; [left; congruence | exact Hp].
    + right. congruence.
    + destruct Hinv as [Hn | Hp]; [right; congruence | exact Hp].
  - unfold from_pair. rewrite get_inherit_column_other.
    + destruct Hcase as [Hy | Hp]; [simpl in Hy; congruence | exact Hp].
    + left. simpl. congruence.
Qed.

Lemma fold_inherit_keeps (l : list (nat * string)) (acc : Row) :
  from_pair acc -> from_pair (fold_left (inherit_column rnd i p) l acc).
Proof.
  revert acc. induction l as [| jc l IH]; intros acc H; simpl.
  - exact H.
  - apply IH. apply inherit_column_keeps; right; exact H.
Qed.

Lemma fold_inherit_invariant (l : list (nat * string)) (acc : Row) :
  get x acc = None \/ from_pair acc ->
  get x (fold_left (inherit_column rnd i p) l acc) = None
  \/ from_pair (fold_left (inherit_column rnd i p) l acc).
Proof.
  revert acc. induction l as [| jc l IH]; intros acc H; simpl.
  - exact H.
  - apply IH. destruct jc as [j y].
    destruct (string_dec y x) as [-> | Hne].
    + right. apply inherit_column_keeps; [exact H | left; reflexivity].
    + rewrite get_inherit_column_other by (left; simpl; congruence).
      destruct H as [H | H]; [left; exact H |].
      right. apply inherit_column_keeps; [right; exact H | right; exact H].
Qed.

(** A column of the frame, other than the feature vector, has in the
    synthetic row the value it has in the source or in the neighbour. *)
Lemma synthetic_row_inherits (u : Qc) :
  In x (original_cols d c) ->
  mem x join_columns = false ->
  from_pair (synthetic_row rnd d c i u p).
Proof.
  intros Hin Hj. unfold from_pair, synthetic_row.
  rewrite get_drop by exact Hj.
  destruct (In_enumerate _ _ Hin) as (j & Hjx).
  apply in_split in Hjx. destruct Hjx as (l1 & l2 & ->).
  rewrite fold_left_app. simpl.
  apply fold_inherit_keeps. apply inherit_column_keeps; [| left; reflexivity].
  apply fold_inherit_invariant. left. simpl.
  apply String.eqb_neq in x_not_features. rewrite x_not_features.
  reflexivity.
Qed.

(** With columns of different names, the side is the one drawn at the turn
    of the column. *)
Lemma synthetic_row_column (u : Qc) (j : nat) :
  nth_error (original_cols d c) j = Some x ->
  NoDup (original_cols d c) ->
  mem x join_columns = false ->
  get x (synthetic_row rnd d c i u p)
  = get x (side_row (choice rnd i j) p).
Proof.
  intros Hnth Hnd Hj. unfold synthetic_row.
  rewrite get_drop by exact Hj.
  apply nth_error_split in Hnth. destruct Hnth as (l1 & l2 & Hl & Hlen).
  rewrite Hl in Hnd. apply NoDup_remove_2 in Hnd.
  unfold enumerate. rewrite Hl, combine_seq_app, fold_left_app. simpl.
  rewrite Hlen.
  rewrite get_fold_inherit_other.
  - rewrite inherit_column_sets, get_fold_inherit_other.
    + simpl. apply String.eqb_neq in x_not_features.
      rewrite x_not_features. unfold F_col.
      destruct (get x (side_row (choice rnd i j) p)); reflexivity.
    + intros [j' y] Hy. left. simpl. apply in_combine_r in Hy.
      intros ->. apply Hnd. apply in_or_app. left. exact Hy.
  - intros [j' y] Hy. left. simpl. apply in_combine_r in Hy.
    intros ->. apply Hnd. apply in_or_app. right. exact Hy.
Qed.

End Inheritance.


(** ** The side of an inherited column *)

Lemma Forall2_map_enumerated (B C : Type) (R : C -> B -> Prop)
      (f : nat * B -> C) (a : nat) (l : list B) :
  (forall j y, R (f (j, y)) y) ->
  Forall2 R (map f (combine (seq a (List.length l)) l)) l.
Proof.
  intro H. revert a. induction l as [| y l IH]; intro a; simpl.
  - constructor.
  - constructor; [apply H | apply IH].
Qed.

Section ColumnSide.

Variable E : Engine.
Variable rnd : Randomness.
Variable d : DataFrame.
Variable c : SmoteConfig.

(** C8.  In batch [i], every synthetic row takes the column drawn at turn
    [j] of the column loop from one and the same side of its pair, the side
    [choice rnd i j] drawn once for the column in that batch. *)
Theorem column_side_fixed_in_batch (i j : nat) (x : string) :
  nth_error (original_cols d c) j = Some x ->
  x <> "features_for_model" ->
  NoDup (original_cols d c) ->
  mem x join_columns = false ->
  Forall2 (fun r p => get x r = get x (side_row (choice rnd i j) p))
          (rows (df_vec_modified E rnd d c i))
          (df_random_sel E rnd d c i).
Proof.
  intros Hnth Hx Hnd Hj. unfold df_vec_modified. cbn [rows].
  apply Forall2_map_enumerated with
    (f := fun jp => synthetic_row rnd d c i (uniform rnd i (fst jp)) (snd jp)).
  intros j' p. simpl. apply synthetic_row_column; assumption.
Qed.

(** The label of a synthetic row is the minority label. *)
Lemma synthetic_row_label (i : nat) (u : Qc) (p : Pair) :
  In "label" (columns d) ->
  In p (df_random_sel E rnd d c i) ->
  has_label (positive_label c) (synthetic_row rnd d c i u p) = true.
Proof.
  intros Hl Hp.
  destruct (self_join_minority _ _ _ _ (df_random_sel_join _ _ _ _ _ _ Hp))
    as [Ha Hb].
  unfold dataInput_min, df_filter in Ha, Hb. cbn [rows] in Ha, Hb.
  apply filter_In in Ha. apply filter_In in Hb.
  destruct Ha as [_ Ha]. destruct Hb as [_ Hb].
  assert (Hx : "label" <> "features_for_model") by discriminate.
  destruct (@synthetic_row_inherits rnd d c i p "label" Hx u Hl eq_refl)
    as [H | H]; unfold has_label in *; rewrite H; assumption.
Qed.

Lemma batch_row_label (i : nat) (r : Row) :
  In "label" (columns d) ->
  In r (rows (df_vec_modified E rnd d c i)) ->
  has_label (positive_label c) r = true.
Proof.
  intros Hl Hr. destruct (df_vec_modified_In _ _ _ _ _ _ Hr)
    as (j & p & Hp & ->).
  apply synthetic_row_label; assumption.
Qed.

Lemma batches_row_label (r : Row) :
  In "label" (columns d) ->
  In r (List.concat (map rows (res E rnd d c))) ->
  has_label (positive_label c) r = true.
Proof.
  intros Hl Hr. apply in_concat in Hr. destruct Hr as (l & Hl' & Hr).
  apply in_map_iff in Hl'. destruct Hl' as (b & <- & Hb).
  unfold res in Hb. apply in_map_iff in Hb. destruct Hb as (i & <- & _).
  eapply batch_row_label; eassumption.
Qed.

End ColumnSide.

Lemma column_side_fixed_in_batch_witness :
  Forall2 (fun r p => get "cat_index" r
                      = get "cat_index" (side_row (choice distinct_draws 0 0) p))
          (rows (df_vec_modified first_coordinate_engine distinct_draws
                                 frame_AB_C (config 1 1) 0))
          (df_random_sel first_coordinate_engine distinct_draws frame_AB_C
                         (config 1 1) 0).
Proof.
  apply (@column_side_fixed_in_batch first_coordinate_engine distinct_draws
           frame_AB_C (config 1 1) 0 0 "cat_index").
  - reflexivity.
  - discriminate.
  - vm_compute. repeat constructor; simpl; intuition discriminate.
  - reflexivity.
Defined.


(** ** The order of the result *)

Lemma filter_none (B : Type) (P : B -> bool) (l : list B) :
  Forall (fun x => P x = false) l -> filter P l = [].
Proof.
  induction 1 as [| x l Hx Hl IH]; simpl.
  - reflexivity.
  - rewrite Hx. exact IH.
Qed.

Lemma filter_all (B : Type) (P : B -> bool) (l : list B) :
  Forall (fun x => P x = true) l -> filter P l = l.
Proof.
  induction 1 as [| x l Hx Hl IH]; simpl.
  - reflexivity.
  - rewrite Hx, IH. reflexivity.
Qed.

Lemma row_number_leb_total (r s : Row) :
  (row_number_of r <=? row_number_of s) = true
  \/ (row_number_of s <=? row_number_of r) = true.
Proof. rewrite !Z.leb_le. lia. Qed.

Lemma row_number_leb_trans (r s t : Row) :
  (row_number_of r <=? row_number_of s) = true ->
  (row_number_of s <=? row_number_of t) = true ->
  (row_number_of r <=? row_number_of t) = true.
Proof. rewrite !Z.leb_le. lia. Qed.

(** Rows numbered [a], [a+1], ... are in the order of their numbers. *)
Lemma numbered_sorted (a : nat) (l : list Row) :
  map row_number_of l = map Z.of_nat (seq a (List.length l)) ->
  StronglySorted
    (fun r s => (row_number_of r <=? row_number_of s) = true) l.
Proof.
  revert a. induction l as [| r l IH]; intros a H; simpl in *.
  - constructor.
  - injection H as Hr Hl. constructor.
    + apply (IH (S a)). exact Hl.
    + apply Forall_forall. intros s Hs. apply Z.leb_le.
      assert (Hin : In (row_number_of s) (map row_number_of l))
        by (apply in_map; exact Hs).
      rewrite Hl in Hin. apply in_map_iff in Hin.
      destruct Hin as (n & Hn & Hseq). apply in_seq in Hseq. lia.
Qed.

Lemma row_number_of_withColumn (n : Z) (r : Row) :
  row_number_of (withColumn "row_number" (VNum n) r) = n.
Proof. unfold row_number_of. rewrite get_withColumn_same. reflexivity. Qed.

Lemma row_numbers_with_row_number (x : DataFrame) :
  map row_number_of (rows (with_row_number x))
  = map Z.of_nat (seq 1 (List.length (rows x))).
Proof.
  unfold with_row_number. cbn [rows]. generalize 1%nat.
  induction (rows x) as [| r l IH]; intro a; simpl.
  - reflexivity.
  - rewrite row_number_of_withColumn, IH. reflexivity.
Qed.

Lemma with_row_number_In (x : DataFrame) (r : Row) :
  In r (rows (with_row_number x)) ->
  exists n r0, In r0 (rows x) /\ r = withColumn "row_number" (VNum n) r0.
Proof.
  unfold with_row_number. cbn [rows]. intro H. apply in_map_iff in H.
  destruct H as ([n r0] & Hr & Hin). simpl in Hr.
  exists (Z.of_nat n), r0. split; [| congruence].
  apply in_combine_r in Hin. exact Hin.
Qed.

Section TwoGroups.

Variable E : Engine.
Variable rnd : Randomness.
Variable d : DataFrame.
Variable c : SmoteConfig.
Variable b : DataFrame.

Hypothesis label_column : In "label" (columns d).
Hypothesis b_columns : columns b = synthetic_columns d c.
Hypothesis b_rows : rows b = List.concat (map rows (res E rnd d c)).

Lemma label_in_synthetic_columns : In "label" (synthetic_columns d c).
Proof.
  apply synthetic_columns_In. split; [reflexivity |]. right.
  exact label_column.
Qed.

Lemma dfunion_columns :
  columns (dfunion E d c b)
  = withColumn_name "row_number" (synthetic_columns d c).
Proof.
  unfold dfunion, with_row_number, sort_rand, df_union. cbn [columns].
  rewrite b_columns. reflexivity.
Qed.

Lemma sort_rand_In (x : DataFrame) (r : Row) :
  In r (rows (sort_rand E c x)) -> In r (rows x).
Proof.
  unfold sort_rand. cbn [rows]. intro H. apply in_map_iff in H.
  destruct H as ([r' y] & Hr & Hin). simpl in Hr. subst r'.
  apply sort_by_In in Hin. apply in_combine_l in Hin. exact Hin.
Qed.

Lemma minority_part_numbers :
  map row_number_of (minority_part E d c b)
  = map Z.of_nat (seq 1 (List.length (minority_part E d c b))).
Proof.
  unfold minority_part, dfunion.
  rewrite length_rows_with_row_number. apply row_numbers_with_row_number.
Qed.

Lemma majority_part_numbers :
  map row_number_of (majority_part E d c b)
  = map Z.of_nat (seq 1 (List.length (majority_part E d c b))).
Proof.
  unfold majority_part, df_select. cbn [rows].
  rewrite length_map, length_rows_with_row_number.
  rewrite <- row_numbers_with_row_number, map_map.
  apply map_ext. intro r. unfold row_number_of at 1.
  rewrite get_select.
  assert (Hm : mem "row_number" (columns (dfunion E d c b)) = true).
  { apply mem_In. rewrite dfunion_columns. apply withColumn_name_incl.
    left. reflexivity. }
  rewrite Hm. reflexivity.
Qed.

Lemma minority_part_label (r : Row) :
  In r (minority_part E d c b) -> has_label (positive_label c) r = true.
Proof.
  unfold minority_part, dfunion. intro H.
  apply with_row_number_In in H. destruct H as (n & r0 & H0 & ->).
  rewrite has_label_withColumn by discriminate.
  apply sort_rand_In in H0. unfold df_union, df_select in H0.
  cbn [rows] in H0. apply in_app_or in H0. destruct H0 as [H0 | H0].
  - rewrite b_rows in H0. eapply batches_row_label; eassumption.
  - apply in_map_iff in H0. destruct H0 as (m & <- & Hm).
    rewrite has_label_select.
    + unfold dataInput_min, df_filter in Hm. cbn [rows] in Hm.
      apply filter_In in Hm. tauto.
    + rewrite b_columns. exact label_in_synthetic_columns.
Qed.

Lemma majority_part_label (r : Row) :
  In r (majority_part E d c b) -> has_label (negative_label c) r = true.
Proof.
  unfold majority_part, df_select. cbn [rows]. intro H.
  apply in_map_iff in H. destruct H as (r1 & <- & H1).
  apply with_row_number_In in H1. destruct H1 as (n & r0 & H0 & ->).
  rewrite has_label_select.
  - rewrite has_label_withColumn by discriminate.
    unfold dataInput_maj, df_filter in H0. cbn [rows] in H0.
    apply filter_In in H0. tauto.
  - rewrite dfunion_columns. apply withColumn_name_incl. right.
    exact label_in_synthetic_columns.
Qed.

(** Without its number, a row of the majority part is the majority row
    under the columns of the batches. *)
Lemma majority_part_plain :
  ~ In "row_number" (columns d) ->
  map (drop ["row_number"]) (majority_part E d c b)
  = map (select (synthetic_columns d c)) (rows (dataInput_maj d c)).
Proof.
  intro Hrn.
  assert (Hfresh : ~ In "row_number" (synthetic_columns d c)).
  { intro H. apply synthetic_columns_In in H. destruct H as [_ [H | H]].
    - discriminate.
    - exact (Hrn H). }
  unfold majority_part, df_select, with_row_number. cbn [rows].
  rewrite dfunion_columns, (withColumn_name_fresh _ _ Hfresh).
  rewrite !map_map. generalize 1%nat.
  induction (rows (dataInput_maj d c)) as [| r l IH]; intro a; simpl.
  - reflexivity.
  - rewrite IH. f_equal.
    unfold select at 1. rewrite flat_map_app. simpl.
    rewrite get_withColumn_same. simpl.
    fold (select (synthetic_columns d c)
                 (withColumn "row_number" (VNum (Z.of_nat a)) r)).
    rewrite (@select_ext (synthetic_columns d c) _ r).
    + assert (Hd : forall v, drop ["row_number"] [("row_number", v)] = [])
        by reflexivity.
      rewrite drop_app, Hd, app_nil_r.
      apply drop_id. intros x Hx. apply select_keys in Hx.
      simpl. destruct (String.eqb x "row_number") eqn:He; [| reflexivity].
      apply String.eqb_eq in He. subst x. contradiction.
    + intros x Hx. apply get_withColumn_other. intros <-. contradiction.
Qed.

End TwoGroups.

Lemma StronglySorted_weaken (B : Type) (R1 R2 : B -> B -> Prop)
      (l : list B) :
  (forall x y, R1 x y -> R2 x y) ->
  StronglySorted R1 l -> StronglySorted R2 l.
Proof.
  intros H. induction 1 as [| x l Hs IH Hx]; constructor.
  - exact IH.
  - eapply Forall_impl; [| exact Hx]. intros y. apply H.
Qed.

Section Order.

Variable E : Engine.
Variable rnd : Randomness.
Variable d : DataFrame.
Variable c : SmoteConfig.


End Order.




(** ** Rows of other labels *)

Lemma filter_filter_implies (B : Type) (P Q : B -> bool) (l : list B) :
  (forall x, P x = true -> Q x = true) ->
  filter P (filter Q l) = filter P l.
Proof.
  intro H. induction l as [| x l IH]; simpl.
  - reflexivity.
  - destruct (Q x) eqn:Hq; simpl.
    + rewrite IH. reflexivity.
    + destruct (P x) eqn:Hp; [| exact IH].
      apply H in Hp. congruence.
Qed.

Section OtherLabels.

Variable E : Engine.
Variable rnd : Randomness.
Variable d : DataFrame.
Variable c : SmoteConfig.

Lemma dataInput_min_two_labels :
  dataInput_min (df_filter (of_two_labels c) d) c = dataInput_min d c.
Proof.
  unfold dataInput_min, df_filter. cbn [rows columns]. f_equal.
  apply filter_filter_implies. intros r H. unfold of_two_labels.
  rewrite H. reflexivity.
Qed.

Lemma dataInput_maj_two_labels :
  dataInput_maj (df_filter (of_two_labels c) d) c = dataInput_maj d c.
Proof.
  unfold dataInput_maj, df_filter. cbn [rows columns]. f_equal.
  apply filter_filter_implies. intros r H. unfold of_two_labels.
  rewrite H. apply orb_true_r.
Qed.

Lemma column_types_filter (f : Row -> bool) :
  column_types d -> column_types (df_filter f d).
Proof.
  intros [n H]. exists n. intros r Hr.
  unfold df_filter in Hr. cbn [rows] in Hr.
  apply filter_In in Hr. apply H. tauto.
Qed.

(** Past the types of its two columns, [smote] reads the rows of its frame
    through the two label filters only: its outcome, a frame or an error,
    is the one of the frame without the rows of other labels. *)
Lemma smote_two_labels :
  column_types d ->
  smote E rnd (df_filter (of_two_labels c) d) c = smote E rnd d c.
Proof.
  intro Ht.
  destruct (column_types_checks Ht) as [H1 H2].
  destruct (column_types_checks (column_types_filter (of_two_labels c) Ht))
    as [H3 H4].
  unfold smote, brp_fit, oversampled_df, dfunion, res, df_vec_modified,
    synthetic_columns, synthetic_row, original_cols, df_random_sel,
    self_similarity_df_selected, self_similarity_df, self_join_w_distance.
  rewrite dataInput_min_two_labels, dataInput_maj_two_labels.
  rewrite H1, H2, H3, H4. reflexivity.
Qed.


End OtherLabels.



(** ** Ties of the random draws *)

(** C3.  The selection keeps every row whose draw equals the largest draw
    of its group.  Here the three minority rows have two candidates each and
    all draws coincide: the source (0,0) gets two selected pairs, and the
    batch has six synthetic rows, two for each source. *)
Theorem tied_draws_keep_every_candidate :
  List.length (rows (dataInput_min frame_three_labels (config 2 1))) = 3%nat
  /\ List.length (candidates first_coordinate_engine frame_three_labels
                             (config 2 1) (sample_row 1 [0; 0] 7)) = 2%nat
  /\ List.length
       (filter (fun p => Row_eqb (datasetA p) (sample_row 1 [0; 0] 7))
               (df_random_sel first_coordinate_engine tied_draws
                              frame_three_labels (config 2 1) 0))
     = 2%nat
  /\ List.length
       (rows (df_vec_modified first_coordinate_engine tied_draws
                              frame_three_labels (config 2 1) 0)) = 6%nat.
Proof.
  repeat split; vm_compute; reflexivity.
Qed.

(** ** The scenario of two minority rows and one majority row *)

(** With A = (0,0), B = (2,0), C = (10,10), [k = 1], one batch and the draw
    [u = 1/2] for both pairs: five rows, the two synthetic ones at (1,0),
    the majority row at (10,10). *)
Example scenario_AB_C :
  exists out,
    smote first_coordinate_engine distinct_draws frame_AB_C (config 1 1)
    = Ok out
    /\ columns out = ["features_for_model"; "cat_index"; "label"]
    /\ map (fun r => map this (toArray (features_of r))) (rows out)
       = [[2; 0]; [10; 10]; [0; 0]; [1; 0]; [1; 0]]%Q
    /\ map (get "label") (rows out)
       = [Some (VNum 1); Some (VNum 0); Some (VNum 1); Some (VNum 1);
          Some (VNum 1)]
    /\ map (get "cat_index") (rows out)
       = [Some (VNum 9); Some (VNum 8); Some (VNum 7); Some (VNum 9);
          Some (VNum 7)].
Proof.
  eexists. split; [reflexivity |].
  repeat split; vm_compute; reflexivity.
Qed.


(** ** One group of a window *)

Lemma filter_comm (B : Type) (P Q : B -> bool) (l : list B) :
  filter P (filter Q l) = filter Q (filter P l).
Proof.
  induction l as [| x l IH]; simpl.
  - reflexivity.
  - destruct (P x) eqn:Hp, (Q x) eqn:Hq; simpl;
      rewrite ?Hp, ?Hq, IH; reflexivity.
Qed.

Section OneGroup.

Variable A : Type.
Variable B : Type.
Variable key : A -> Row.
Variable keyB : B -> Row.

(** What the window computes for a group: rows of the keys of the group. *)
Variable F : list A -> list B.

Hypothesis F_keys :
  forall g x, In x (F g) -> exists y, In y g /\ keyB x = key y.
Hypothesis F_nil : F [] = [].

Lemma flat_map_groups_filter (l : list A) (a : Row) (keys : list Row) :
  NoDup keys ->
  filter (fun x => Row_eqb (keyB x) a)
         (flat_map F (map (fun a' => filter (fun y => Row_eqb (key y) a') l)
                          keys))
  = if in_dec Row_eq_dec a keys
    then F (filter (fun y => Row_eqb (key y) a) l)
    else [].
Proof.
  induction 1 as [| a' keys Hn Hnd IH]; simpl.
  - reflexivity.
  - rewrite filter_app, IH.
    destruct (Row_eq_dec a' a) as [-> | Hne].
    + destruct (in_dec Row_eq_dec a keys) as [Hin | _]; [contradiction |].
      rewrite app_nil_r. apply filter_all.
      apply Forall_forall. intros x Hx. apply Row_eqb_eq.
      destruct (F_keys _ _ Hx) as (y & Hy & ->).
      apply filter_In in Hy. apply Row_eqb_eq. tauto.
    + rewrite filter_none.
      * simpl. destruct (in_dec Row_eq_dec a keys); reflexivity.
      * apply Forall_forall. intros x Hx.
        destruct (F_keys _ _ Hx) as (y & Hy & Hk).
        apply filter_In in Hy. destruct Hy as [_ Hy].
        apply Row_eqb_eq in Hy.
        destruct (Row_eqb (keyB x) a) eqn:Hb; [| reflexivity].
        apply Row_eqb_eq in Hb. congruence.
Qed.

(** The rows of one key in the result of a window are the result for the
    group of that key. *)
Lemma window_group (l : list A) (a : Row) :
  filter (fun x => Row_eqb (keyB x) a) (flat_map F (partitionBy key l))
  = F (filter (fun y => Row_eqb (key y) a) l).
Proof.
  unfold partitionBy. rewrite flat_map_groups_filter by apply NoDup_nodup.
  destruct (in_dec Row_eq_dec a (nodup Row_eq_dec (map key l)))
    as [_ | Hn]; [reflexivity |].
  rewrite filter_none; [symmetry; exact F_nil |].
  apply Forall_forall. intros y Hy.
  destruct (Row_eqb (key y) a) eqn:Hb; [| reflexivity].
  apply Row_eqb_eq in Hb. exfalso. apply Hn. apply nodup_In.
  rewrite <- Hb. apply in_map. exact Hy.
Qed.

End OneGroup.

Lemma Qc_leb_total (x y : Qc) : Qc_leb x y = true \/ Qc_leb y x = true.
Proof.
  unfold Qc_leb. rewrite !Qle_bool_iff.
  destruct (Qlt_le_dec x y) as [H | H].
  - left. apply Qlt_le_weak. exact H.
  - right. exact H.
Qed.

Lemma Qc_leb_trans (x y z : Qc) :
  Qc_leb x y = true -> Qc_leb y z = true -> Qc_leb x z = true.
Proof.
  unfold Qc_leb. rewrite !Qle_bool_iff. apply Qle_trans.
Qed.

Lemma Qc_leb_le (x y : Qc) : Qc_leb x y = true <-> (x <= y)%Qc.
Proof. unfold Qc_leb, Qcle. apply Qle_bool_iff. Qed.

(** The rows of rank at most [k] are the first [k] rows. *)
Lemma filter_rank (B : Type) (kz : Z) (l : list B) (s : nat) :
  (1 <= s)%nat ->
  map fst (filter (fun x : B * Z => snd x <=? kz)
                  (combine l (map Z.of_nat (seq s (List.length l)))))
  = firstn (Z.to_nat kz + 1 - s) l.
Proof.
  revert s. induction l as [| x l IH]; intros s Hs; simpl.
  - rewrite firstn_nil. reflexivity.
  - destruct (Z.of_nat s <=? kz) eqn:Hk.
    + apply Z.leb_le in Hk. simpl. rewrite IH by lia.
      replace (Z.to_nat kz + 1 - s)%nat
        with (S (Z.to_nat kz + 1 - S s)) by lia.
      reflexivity.
    + apply Z.leb_gt in Hk. rewrite IH by lia.
      replace (Z.to_nat kz + 1 - s)%nat with 0%nat by lia.
      replace (Z.to_nat kz + 1 - S s)%nat with 0%nat by lia.
      reflexivity.
Qed.


(** ** The candidates of a source *)

Section Nearest.

Variable E : Engine.
Variable d : DataFrame.
Variable c : SmoteConfig.

Lemma ranked_group (a : Row) :
  filter (fun x => Row_eqb (datasetA (fst x)) a) (self_similarity_df E d c)
  = combine (neighbours_by_distance E d c a)
            (map Z.of_nat
                 (seq 1 (List.length (neighbours_by_distance E d c a)))).
Proof.
  unfold self_similarity_df, neighbours_by_distance.
  rewrite (sort_by_length _ (filter _ (self_join_w_distance E d c))).
  apply (@window_group Pair (Pair * Z) datasetA
           (fun x => datasetA (fst x))
           (fun g =>
              combine (sort_by (fun p q => Qc_leb (EuclideanDistance p)
                                                  (EuclideanDistance q)) g)
                      (map Z.of_nat (seq 1 (List.length g))))).
  - intros g [p n] Hx. exists p. split; [| reflexivity].
    apply in_combine_l in Hx. apply sort_by_In in Hx. exact Hx.
  - reflexivity.
Qed.

(** X3.  The candidates of a source are the neighbours of the first
    [k] pairs of that source in ascending distance, among the pairs the
    join keeps: at most [k] of them, none when [k < 1], and no pair left
    out is nearer than a pair kept. *)
Theorem candidates_are_the_nearest (a : Row) :
  candidates E d c a
  = map datasetB (firstn (Z.to_nat (k c)) (neighbours_by_distance E d c a))
  /\ StronglySorted
       (fun p q => (EuclideanDistance p <= EuclideanDistance q)%Qc)
       (neighbours_by_distance E d c a)
  /\ (forall p, In p (neighbours_by_distance E d c a)
                <-> In p (self_join_w_distance E d c) /\ datasetA p = a)
  /\ (List.length (candidates E d c a) <= Z.to_nat (k c))%nat.
Proof.
  assert (Hc : candidates E d c a
               = map datasetB (firstn (Z.to_nat (k c))
                                      (neighbours_by_distance E d c a))).
  { unfold candidates, self_similarity_df_selected.
    rewrite filter_comm, ranked_group.
    rewrite <- (map_map fst datasetB).
    rewrite filter_rank by lia.
    replace (Z.to_nat (k c) + 1 - 1)%nat with (Z.to_nat (k c)) by lia.
    reflexivity. }
  split; [exact Hc |]. split; [| split].
  - unfold neighbours_by_distance.
    apply StronglySorted_weaken
      with (R1 := fun p q => Qc_leb (EuclideanDistance p)
                                    (EuclideanDistance q) = true).
    + intros p q H. apply Qc_leb_le. exact H.
    + apply sort_by_sorted.
      * intros p q. apply Qc_leb_total.
      * intros p q r. apply Qc_leb_trans.
  - intro p. unfold neighbours_by_distance.
    rewrite sort_by_In, filter_In, Row_eqb_eq. tauto.
  - rewrite Hc, length_map, length_firstn. lia.
Qed.

End Nearest.


(** ** The pairs a batch selects for one source *)

Section PerSource.

Variable E : Engine.
Variable rnd : Randomness.
Variable d : DataFrame.
Variable c : SmoteConfig.
Variable i : nat.
Variable a : Row.

(** The candidate rows of source [a], each with its draw of batch [i]. *)
Let drawn : list (Pair * Z * Qc) :=
  filter (fun x => Row_eqb (datasetA (fst (fst x))) a)
         (combine (self_similarity_df_selected E d c)
                  (map (rand rnd i)
                       (seq 0 (List.length
                                 (self_similarity_df_selected E d c))))).

Lemma selected_of_source :
  filter (fun p => Row_eqb (datasetA p) a) (df_random_sel E rnd d c i)
  = map (fun x => fst (fst x))
        (filter (fun x => Qc_eqb (snd x) (max_of (map snd drawn))) drawn).
Proof.
  unfold df_random_sel. rewrite filter_map_swap, filter_comm.
  rewrite (@window_group (Pair * Z * Qc) (Pair * Z * Qc * Qc)
             (fun x => datasetA (fst (fst x)))
             (fun x => datasetA (fst (fst (fst x))))
             (fun g => map (fun x => (x, max_of (map snd g))) g)).
  - fold drawn. rewrite filter_map_swap, map_map. reflexivity.
  - intros g x Hx. apply in_map_iff in Hx. destruct Hx as (y & <- & Hy).
    exists y. split; [exact Hy | reflexivity].
  - reflexivity.
Qed.

Lemma drawn_candidates :
  map (fun x => datasetB (fst (fst x))) drawn = candidates E d c a.
Proof.
  unfold drawn, candidates.
  rewrite <- (map_map fst (fun x => datasetB (fst x))). f_equal.
  rewrite <- (filter_map_swap (fun x => Row_eqb (datasetA (fst x)) a) fst).
  rewrite map_fst_combine_seq. reflexivity.
Qed.

Lemma drawn_nil : candidates E d c a = [] <-> drawn = [].
Proof.
  rewrite <- drawn_candidates. split.
  - apply map_eq_nil.
  - intros ->. reflexivity.
Qed.

(** A source that has candidates gets a pair in the batch. *)
Lemma source_gets_a_pair :
  candidates E d c a <> [] ->
  exists p, In p (df_random_sel E rnd d c i) /\ datasetA p = a.
Proof.
  intro Hne.
  assert (Hd : drawn <> []) by (intro H; apply Hne, drawn_nil; exact H).
  destruct drawn as [| x t] eqn:Hdr; [congruence |].
  pose proof (max_of_In (snd x) (map snd t)) as Hmax.
  change (snd x :: map snd t) with (map snd (x :: t)) in Hmax.
  apply in_map_iff in Hmax. destruct Hmax as (y & Hy & Hin).
  assert (Hsel : In (fst (fst y))
                    (filter (fun p => Row_eqb (datasetA p) a)
                            (df_random_sel E rnd d c i))).
  { rewrite selected_of_source, Hdr.
    apply (in_map (fun z : Pair * Z * Qc => fst (fst z))).
    apply filter_In.
    split; [exact Hin |]. apply Qc_eqb_eq. exact Hy. }
  apply filter_In in Hsel. exists (fst (fst y)).
  rewrite <- Row_eqb_eq. exact Hsel.
Qed.

(** The pairs selected for a source are at most the candidate rows of the
    source. *)
Lemma selected_of_source_le :
  (List.length (filter (fun p => Row_eqb (datasetA p) a)
                       (df_random_sel E rnd d c i))
   <= List.length (filter (fun x => Row_eqb (datasetA (fst x)) a)
                          (self_similarity_df_selected E d c)))%nat.
Proof.
  rewrite selected_of_source, length_map.
  eapply Nat.le_trans; [apply filter_length_le |].
  unfold drawn. rewrite <- (length_map fst).
  rewrite <- (filter_map_swap (fun x => Row_eqb (datasetA (fst x)) a) fst).
  rewrite map_fst_combine_seq. apply Nat.le_refl.
Qed.

(** X4.  In every batch, a source that has candidates gets at least one
    selected pair, and the neighbour of every pair selected for a source is
    one of the candidates of that source: a source without candidates gets
    none. *)
Theorem batch_selects_among_candidates :
  (candidates E d c a <> [] ->
   exists p, In p (df_random_sel E rnd d c i) /\ datasetA p = a)
  /\ (forall p, In p (df_random_sel E rnd d c i) -> datasetA p = a ->
                In (datasetB p) (candidates E d c a)).
Proof.
  split.
  - exact source_gets_a_pair.
  - intros p Hp Ha. apply df_random_sel_In in Hp. destruct Hp as (n & Hp).
    unfold candidates. apply in_map_iff. exists (p, n). split; [reflexivity |].
    apply filter_In. split; [exact Hp |]. apply Row_eqb_eq. exact Ha.
Qed.

(** X5.  When no two rows of a batch receive the same draw, the batch
    selects exactly one pair for every source that has candidates, and none
    for any other row. *)
Theorem one_neighbour_without_ties :
  no_ties rnd ->
  List.length (filter (fun p => Row_eqb (datasetA p) a)
                      (df_random_sel E rnd d c i))
  = match candidates E d c a with
    | [] => 0%nat
    | _ :: _ => 1%nat
    end.
Proof.
  intro Hties. rewrite selected_of_source, length_map.
  destruct (candidates E d c a) as [| b t] eqn:Hc.
  - apply drawn_nil in Hc. rewrite Hc. reflexivity.
  - assert (Hd : drawn <> []).
    { intro H. apply drawn_nil in H. congruence. }
    rewrite <- (length_map snd).
    rewrite <- (filter_map_swap
                  (fun v => Qc_eqb v (max_of (map snd drawn))) snd).
    apply count_max_NoDup.
    + destruct drawn; [congruence | discriminate].
    + unfold drawn. apply NoDup_map_filter.
      rewrite map_snd_combine_seq.
      apply NoDup_map_NoDup_ForallPairs; [| apply seq_NoDup].
      intros x y _ _. apply Hties.
Qed.

End PerSource.

Lemma one_neighbour_without_ties_witness :
  List.length
    (filter (fun p => Row_eqb (datasetA p) (sample_row 1 [0; 0] 7))
            (df_random_sel first_coordinate_engine distinct_draws
                           frame_three_labels (config 2 1) 0))
  = match candidates first_coordinate_engine frame_three_labels (config 2 1)
                     (sample_row 1 [0; 0] 7) with
    | [] => 0%nat
    | _ :: _ => 1%nat
    end.
Proof.
  apply (@one_neighbour_without_ties first_coordinate_engine distinct_draws
           frame_three_labels (config 2 1) 0 (sample_row 1 [0; 0] 7)).
  exact distinct_draws_no_ties.
Defined.

Lemma batch_selects_among_candidates_witness :
  exists p,
    In p (df_random_sel first_coordinate_engine tied_draws
                        frame_three_labels (config 2 1) 0)
    /\ datasetA p = sample_row 1 [0; 0] 7.
Proof.
  apply (proj1 (@batch_selects_among_candidates first_coordinate_engine
                  tied_draws frame_three_labels (config 2 1) 0
                  (sample_row 1 [0; 0] 7))).
  vm_compute. discriminate.
Defined.


(** ** The values of a synthetic row *)

Section SyntheticValues.

Variable E : Engine.
Variable rnd : Randomness.
Variable d : DataFrame.
Variable c : SmoteConfig.

(** A synthetic row has no column besides the feature vector and the
    columns of the frame. *)
Lemma synthetic_row_no_other_column (i : nat) (u : Qc) (p : Pair)
      (x : string) :
  x <> "features_for_model" ->
  ~ In x (original_cols d c) ->
  get x (synthetic_row rnd d c i u p) = None.
Proof.
  intros Hx Hn. unfold synthetic_row.
  apply get_None. intro Hin.
  assert (Hk : In x (map fst
                        (fold_left (inherit_column rnd i p)
                                   (enumerate (original_cols d c))
                                   [("features_for_model",
                                     VVec (new_features u p))]))).
  { apply in_map_iff in Hin. destruct Hin as (kv & Hkv & Hin).
    apply filter_In in Hin. apply in_map_iff. exists kv. tauto. }
  apply get_None in Hk; [exact Hk |].
  rewrite get_fold_inherit_other.
  - simpl. apply String.eqb_neq in Hx. rewrite Hx. reflexivity.
  - intros [j y] Hy. left. simpl. apply in_combine_r in Hy.
    intros ->. contradiction.
Qed.

(** X6.  Every synthetic row of a batch is made from one selected pair:
    each column of the frame other than the feature vector has in it the
    value of that column in the source or in the neighbour of the pair, and
    a name that is no column of the frame is no column of the row. *)
Theorem synthetic_row_copies_the_pair (i : nat) (r : Row) :
  In r (rows (df_vec_modified E rnd d c i)) ->
  exists p,
    In p (df_random_sel E rnd d c i)
    /\ (forall x, In x (original_cols d c) ->
                  x <> "features_for_model" ->
                  mem x join_columns = false ->
                  get x r = get x (datasetA p) \/ get x r = get x (datasetB p))
    /\ (forall x, x <> "features_for_model" ->
                  ~ In x (original_cols d c) -> get x r = None).
Proof.
  intro Hr. destruct (df_vec_modified_In _ _ _ _ _ _ Hr)
    as (j & p & Hp & ->).
  exists p. split; [exact Hp |]. split.
  - intros x Hin Hx Hj. apply synthetic_row_inherits; assumption.
  - intros x Hx Hn. apply synthetic_row_no_other_column; assumption.
Qed.

(** X7.  In a frame that has the label column, every synthetic row of
    every batch has the minority label. *)
Theorem synthetic_rows_are_minority (i : nat) (r : Row) :
  In "label" (columns d) ->
  In r (rows (df_vec_modified E rnd d c i)) ->
  get "label" r = Some (VNum (positive_label c)).
Proof.
  intros Hl Hr.
  pose proof (batch_row_label E rnd d c i r Hl Hr) as H.
  clear Hr. unfold has_label in H.
  destruct (get "label" r) as [[n | v] |]; try discriminate.
  apply Z.eqb_eq in H. congruence.
Qed.

End SyntheticValues.

Lemma synthetic_row_copies_the_pair_witness :
  exists p,
    In p (df_random_sel first_coordinate_engine distinct_draws frame_AB_C
                        (config 1 1) 0)
    /\ (forall x,
           In x (original_cols frame_AB_C (config 1 1)) ->
           x <> "features_for_model" ->
           mem x join_columns = false ->
           get x (nth 0 (rows (df_vec_modified first_coordinate_engine
                                 distinct_draws frame_AB_C (config 1 1) 0)) [])
           = get x (datasetA p)
           \/ get x (nth 0 (rows (df_vec_modified first_coordinate_engine
                                    distinct_draws frame_AB_C (config 1 1) 0))
                         [])
              = get x (datasetB p))
    /\ (forall x,
           x <> "features_for_model" ->
           ~ In x (original_cols frame_AB_C (config 1 1)) ->
           get x (nth 0 (rows (df_vec_modified first_coordinate_engine
                                 distinct_draws frame_AB_C (config 1 1) 0)) [])
           = None).
Proof.
  apply (@synthetic_row_copies_the_pair first_coordinate_engine
           distinct_draws frame_AB_C (config 1 1) 0).
  vm_compute. left. reflexivity.
Defined.

Lemma synthetic_rows_are_minority_witness :
  get "label"
      (nth 0 (rows (df_vec_modified first_coordinate_engine distinct_draws
                                    frame_AB_C (config 1 1) 0)) [])
  = Some (VNum 1).
Proof.
  apply (@synthetic_rows_are_minority first_coordinate_engine distinct_draws
           frame_AB_C (config 1 1) 0).
  - simpl. tauto.
  - vm_compute. left. reflexivity.
Defined.


(** ** The rows of the result *)

Lemma drop_withColumn_fresh (x : string) (v : Value) (r : Row) :
  ~ In x (map fst r) -> drop [x] (withColumn x v r) = r.
Proof.
  intro H. unfold withColumn.
  destruct (mem x (map fst r)) eqn:Hm.
  - apply mem_In in Hm. contradiction.
  - rewrite drop_app.
    assert (Hd : drop [x] [(x, v)] = []).
    { unfold drop. simpl. rewrite String.eqb_refl. reflexivity. }
    rewrite Hd, app_nil_r. apply drop_id. intros y Hy. simpl.
    destruct (String.eqb y x) eqn:He; [| reflexivity].
    apply String.eqb_eq in He. subst y. contradiction.
Qed.

(** Numbering rows that have no [row_number] column and dropping the number
    gives the rows back. *)
Lemma drop_row_number_with_row_number (x : DataFrame) :
  Forall (fun r => ~ In "row_number" (map fst r)) (rows x) ->
  map (drop ["row_number"]) (rows (with_row_number x)) = rows x.
Proof.
  unfold with_row_number. cbn [rows]. rewrite map_map. generalize 1%nat.
  induction (rows x) as [| r l IH]; intros a H; cbn [List.length seq combine map].
  - reflexivity.
  - inversion H as [| r' l' Hr Hl]; subst.
    rewrite IH by exact Hl. cbn [fst snd].
    rewrite drop_withColumn_fresh by exact Hr. reflexivity.
Qed.

Section Content.

Variable E : Engine.
Variable rnd : Randomness.
Variable d : DataFrame.
Variable c : SmoteConfig.

Lemma sort_rand_perm (x : DataFrame) :
  Permutation (rows (sort_rand E c x)) (rows x).
Proof.
  unfold sort_rand. cbn [rows].
  apply perm_trans
    with (map fst (combine (rows x)
                           (map (rand_seeded E (seed c))
                                (seq 0 (List.length (rows x)))))).
  - apply Permutation_map. apply sort_by_perm.
  - rewrite map_fst_combine_seq. apply Permutation_refl.
Qed.

Lemma batches_no_row_number (r : Row) :
  ~ In "row_number" (columns d) ->
  In r (List.concat (map rows (res E rnd d c))) ->
  ~ In "row_number" (map fst r).
Proof.
  intros Hrn Hr. apply in_concat in Hr. destruct Hr as (l & Hl & Hr).
  apply in_map_iff in Hl. destruct Hl as (b & <- & Hb).
  unfold res in Hb. apply in_map_iff in Hb. destruct Hb as (i & <- & _).
  destruct (df_vec_modified_In _ _ _ _ _ _ Hr) as (j & p & _ & ->).
  apply get_None. apply synthetic_row_no_other_column.
  - discriminate.
  - exact Hrn.
Qed.

Lemma synthetic_columns_no_row_number :
  ~ In "row_number" (columns d) ->
  ~ In "row_number" (synthetic_columns d c).
Proof.
  intros Hrn H. apply synthetic_columns_In in H. destruct H as [_ [H | H]].
  - discriminate.
  - exact (Hrn H).
Qed.

(** Without the number, the minority part is the batches and the minority
    rows, in the order of the shuffle. *)
Lemma minority_part_plain (b : DataFrame) :
  columns b = synthetic_columns d c ->
  rows b = List.concat (map rows (res E rnd d c)) ->
  ~ In "row_number" (columns d) ->
  Permutation
    (map (drop ["row_number"]) (minority_part E d c b))
    (rows b ++ map (select (synthetic_columns d c))
                   (rows (dataInput_min d c))).
Proof.
  intros Hcols Hrows Hrn. unfold minority_part, dfunion.
  rewrite drop_row_number_with_row_number.
  - eapply perm_trans; [apply sort_rand_perm |].
    unfold df_union, df_select. cbn [rows]. rewrite Hcols.
    apply Permutation_refl.
  - apply Forall_forall. intros r Hr. apply sort_rand_In in Hr.
    unfold df_union, df_select in Hr. cbn [rows] in Hr.
    apply in_app_or in Hr. destruct Hr as [Hr | Hr].
    + rewrite Hrows in Hr. apply batches_no_row_number; assumption.
    + apply in_map_iff in Hr. destruct Hr as (m & <- & _).
      intro H. apply select_keys in H. rewrite Hcols in H.
      exact (synthetic_columns_no_row_number Hrn H).
Qed.

(** The rows of the result, up to their order. *)
Lemma smote_rows :
  fit_succeeds d c ->
  1 <= multiplier c ->
  ~ In "row_number" (columns d) ->
  exists out,
    smote E rnd d c = Ok out
    /\ Permutation
         (rows out)
         (List.concat (map rows (res E rnd d c))
          ++ map (select (synthetic_columns d c)) (rows (dataInput_min d c))
          ++ map (select (synthetic_columns d c)) (rows (dataInput_maj d c))).
Proof.
  intros Hfit Hm Hrn.
  destruct (smote_returns E rnd Hfit Hm) as (b & Hred & Hcols & Hrows & Hs).
  eexists. split; [exact Hs |].
  unfold df_drop, sort_row_number. cbn [rows].
  eapply perm_trans.
  - apply Permutation_map. apply sort_by_perm.
  - change (rows (oversampled_df E d c b))
      with (minority_part E d c b ++ majority_part E d c b).
    rewrite map_app, (majority_part_plain E d c b Hcols Hrn).
    rewrite app_assoc. apply Permutation_app_tail.
    rewrite <- Hrows. apply minority_part_plain; assumption.
Qed.

(** A row under the columns of the batches has the value it had in every
    column of the frame. *)
Lemma select_keeps_values (r : Row) (x : string) :
  In x (columns d) -> mem x join_columns = false ->
  get x (select (synthetic_columns d c) r) = get x r.
Proof.
  intros Hx Hj. rewrite get_select.
  assert (Hin : In x (synthetic_columns d c)).
  { apply synthetic_columns_In. split; [exact Hj |]. right. exact Hx. }
  apply mem_In in Hin. rewrite Hin. reflexivity.
Qed.


End Content.



(** ** Configurations and frames outside the contract *)

Section Degenerate.

Variable E : Engine.
Variable rnd : Randomness.
Variable d : DataFrame.
Variable c : SmoteConfig.

Lemma no_batch_rows :
  self_similarity_df_selected E d c = [] ->
  List.concat (map rows (res E rnd d c)) = [].
Proof.
  intro H. unfold res. rewrite map_map.
  induction (seq 0 (Z.to_nat (multiplier c))) as [| i l IH];
    [reflexivity |].
  cbn [map List.concat]. rewrite IH, app_nil_r.
  unfold df_vec_modified. cbn [rows].
  rewrite (df_random_sel_nil E rnd d c i H). reflexivity.
Qed.

(** Without candidates, the result has the rows of the two classes and no
    other row. *)
Lemma smote_without_candidates :
  fit_succeeds d c ->
  1 <= multiplier c ->
  ~ In "row_number" (columns d) ->
  self_similarity_df_selected E d c = [] ->
  exists out,
    smote E rnd d c = Ok out
    /\ Permutation
         (rows out)
         (map (select (synthetic_columns d c))
              (rows (dataInput_min d c) ++ rows (dataInput_maj d c))).
Proof.
  intros Hfit Hm Hrn H.
  destruct (smote_rows E rnd Hfit Hm Hrn) as (out & Hs & Hp).
  exists out. split; [exact Hs |].
  rewrite (no_batch_rows H) in Hp. rewrite map_app. exact Hp.
Qed.


Hypothesis distance_self : distance_zero_on_equal E.

Lemma single_row_no_join (a : Row) :
  rows (dataInput_min d c) = [a] -> self_join_w_distance E d c = [].
Proof.
  intro Ha. destruct (self_join_w_distance E d c) as [| p t] eqn:Hj;
    [reflexivity |].
  assert (Hp : In p (self_join_w_distance E d c))
    by (rewrite Hj; left; reflexivity).
  destruct (@self_join_proper E d c distance_self p Hp) as [Hne _].
  destruct (self_join_minority _ _ _ _ Hp) as [HA HB].
  rewrite Ha in HA, HB. simpl in HA, HB.
  destruct HA as [HA | []]. destruct HB as [HB | []]. congruence.
Qed.

Lemma no_join_no_candidates :
  self_join_w_distance E d c = [] -> self_similarity_df_selected E d c = [].
Proof.
  intro H. destruct (self_similarity_df_selected E d c) as [| [p n] t] eqn:Hs;
    [reflexivity |].
  assert (Hin : In (p, n) (self_similarity_df_selected E d c))
    by (rewrite Hs; left; reflexivity).
  apply self_similarity_df_selected_In in Hin. destruct Hin as [Hin _].
  apply self_similarity_df_In in Hin. destruct Hin as [Hin _].
  rewrite H in Hin. contradiction.
Qed.


End Degenerate.






(** ** The labels of the result *)

Section LabelCounts.

Variable E : Engine.
Variable rnd : Randomness.
Variable d : DataFrame.
Variable c : SmoteConfig.

Lemma length_minority_part (b : DataFrame) :
  List.length (minority_part E d c b)
  = (List.length (rows b) + List.length (rows (dataInput_min d c)))%nat.
Proof.
  unfold minority_part, dfunion.
  rewrite length_rows_with_row_number, length_rows_sort_rand.
  unfold df_union, df_select. cbn [rows].
  rewrite length_app, length_map. reflexivity.
Qed.

Lemma length_majority_part (b : DataFrame) :
  List.length (majority_part E d c b)
  = List.length (rows (dataInput_maj d c)).
Proof.
  unfold majority_part, df_select. cbn [rows].
  rewrite length_map. apply length_rows_with_row_number.
Qed.

Lemma count_label_result (l : Z) (b : DataFrame) :
  List.length
    (filter (has_label l)
       (rows (df_drop ["row_number"]
                (sort_row_number (oversampled_df E d c b)))))
  = (List.length (filter (has_label l) (minority_part E d c b))
     + List.length (filter (has_label l) (majority_part E d c b)))%nat.
Proof.
  unfold df_drop, sort_row_number. cbn [rows].
  rewrite filter_map_swap, length_map.
  rewrite (@filter_ext _ _ (has_label l))
    by (intro r; apply has_label_drop; reflexivity).
  rewrite filter_sort_by
    by (exact row_number_leb_total || exact row_number_leb_trans).
  rewrite sort_by_length.
  change (rows (oversampled_df E d c b))
    with (minority_part E d c b ++ majority_part E d c b).
  rewrite filter_app, length_app. reflexivity.
Qed.


End LabelCounts.



(** ** The columns of the result *)

Lemma keys_withColumn (x : string) (v : Value) (r : Row) :
  map fst (withColumn x v r) = withColumn_name x (map fst r).
Proof.
  unfold withColumn, withColumn_name. destruct (mem x (map fst r)).
  - rewrite map_map. induction r as [| [y w] r IH]; simpl.
    + reflexivity.
    + rewrite IH. destruct (String.eqb y x) eqn:He; simpl; [| reflexivity].
      apply String.eqb_eq in He. congruence.
  - rewrite map_app. reflexivity.
Qed.

Lemma keys_drop (cs : list string) (r : Row) :
  map fst (drop cs r) = drop_names cs (map fst r).
Proof.
  unfold drop, drop_names. induction r as [| [y w] r IH]; simpl.
  - reflexivity.
  - destruct (negb (mem y cs)); simpl; rewrite IH; reflexivity.
Qed.

Lemma select_all_keys (cs : list string) (r : Row) :
  (forall x, In x cs -> In x (map fst r)) -> map fst (select cs r) = cs.
Proof.
  unfold select. induction cs as [| y cs IH]; intro H; simpl.
  - reflexivity.
  - rewrite map_app, IH by (intros x Hx; apply H; right; exact Hx).
    destruct (get y r) as [v |] eqn:Hg; [reflexivity |].
    apply get_None in Hg. exfalso. apply Hg. apply H. left. reflexivity.
Qed.

Lemma map_snd_enumerate (cs : list string) : map snd (enumerate cs) = cs.
Proof.
  unfold enumerate. generalize 0%nat.
  induction cs as [| x cs IH]; intro a; simpl.
  - reflexivity.
  - rewrite IH. reflexivity.
Qed.

Lemma drop_names_absorbs (x : string) (J K : list string) :
  mem x J = true -> drop_names J (withColumn_name x K) = drop_names J K.
Proof.
  intro H. unfold withColumn_name, drop_names. destruct (mem x K).
  - reflexivity.
  - rewrite filter_app. simpl. rewrite H. simpl. apply app_nil_r.
Qed.

Lemma mem_drop_names (x : string) (J K : list string) :
  mem x J = false -> mem x (drop_names J K) = mem x K.
Proof.
  intro H. apply eq_true_iff_eq. rewrite !mem_In. unfold drop_names.
  rewrite filter_In, H. simpl. tauto.
Qed.

Lemma drop_names_withColumn_name (x : string) (J K1 K2 : list string) :
  drop_names J K1 = drop_names J K2 ->
  drop_names J (withColumn_name x K1) = drop_names J (withColumn_name x K2).
Proof.
  intro H. destruct (mem x J) eqn:Hj.
  - rewrite !drop_names_absorbs by exact Hj. exact H.
  - assert (Hm : mem x K1 = mem x K2).
    { rewrite <- (mem_drop_names x J K1 Hj), <- (mem_drop_names x J K2 Hj).
      rewrite H. reflexivity. }
    unfold withColumn_name. rewrite Hm. destruct (mem x K2); [exact H |].
    unfold drop_names in *. rewrite !filter_app, H. reflexivity.
Qed.

Section Schema.

Variable E : Engine.
Variable rnd : Randomness.
Variable d : DataFrame.
Variable c : SmoteConfig.

Hypothesis d_rows : rows_have_columns d.

Lemma frame_row_keys (r : Row) : In r (rows d) -> map fst r = columns d.
Proof.
  intro H. unfold rows_have_columns in d_rows.
  rewrite Forall_forall in d_rows. apply d_rows. exact H.
Qed.

Lemma minority_row_keys (r : Row) :
  In r (rows (dataInput_min d c)) -> map fst r = columns d.
Proof.
  unfold dataInput_min, df_filter. cbn [rows]. intro H.
  apply filter_In in H. apply frame_row_keys. tauto.
Qed.

Lemma majority_row_keys (r : Row) :
  In r (rows (dataInput_maj d c)) -> map fst r = columns d.
Proof.
  unfold dataInput_maj, df_filter. cbn [rows]. intro H.
  apply filter_In in H. apply frame_row_keys. tauto.
Qed.

Lemma fold_inherit_keys (i : nat) (p : Pair) (l : list (nat * string))
      (acc : Row) (cs : list string) :
  (forall jc s, In jc l -> F_col s (snd jc) p <> None) ->
  drop_names join_columns (map fst acc) = drop_names join_columns cs ->
  drop_names join_columns
             (map fst (fold_left (inherit_column rnd i p) l acc))
  = drop_names join_columns
      (fold_left (fun cs c => if negb (String.eqb c "features_for_model")
                              then withColumn_name c cs else cs)
                 (map snd l) cs).
Proof.
  revert acc cs. induction l as [| [j x] l IH]; intros acc cs Hf H; simpl.
  - exact H.
  - apply IH.
    + intros jc s Hjc. apply Hf. right. exact Hjc.
    + unfold inherit_column. cbn [fst snd].
      destruct (String.eqb x "features_for_model"); simpl; [exact H |].
      destruct (F_col (choice rnd i j) x p) as [v |] eqn:Hv.
      * rewrite keys_withColumn. apply drop_names_withColumn_name. exact H.
      * exfalso. apply (Hf (j, x) (choice rnd i j)); [left; reflexivity |].
        exact Hv.
Qed.

(** The columns of a synthetic row are the columns of its batch. *)
Lemma synthetic_row_keys (i : nat) (u : Qc) (p : Pair) :
  In p (df_random_sel E rnd d c i) ->
  map fst (synthetic_row rnd d c i u p) = synthetic_columns d c.
Proof.
  intro Hp.
  destruct (self_join_minority _ _ _ _ (df_random_sel_join _ _ _ _ _ _ Hp))
    as [Ha Hb].
  apply minority_row_keys in Ha. apply minority_row_keys in Hb.
  unfold synthetic_row, synthetic_columns. rewrite keys_drop.
  rewrite <- (map_snd_enumerate (original_cols d c)) at 2.
  apply fold_inherit_keys; [| reflexivity].
  intros [j x] s Hjc. cbn [snd]. apply in_combine_r in Hjc.
  unfold F_col. intro Hn. apply get_None in Hn. apply Hn.
  destruct s; simpl; [rewrite Ha | rewrite Hb]; exact Hjc.
Qed.

Lemma batches_row_keys (r : Row) :
  In r (List.concat (map rows (res E rnd d c))) ->
  map fst r = synthetic_columns d c.
Proof.
  intro Hr. apply in_concat in Hr. destruct Hr as (l & Hl & Hr).
  apply in_map_iff in Hl. destruct Hl as (b & <- & Hb).
  unfold res in Hb. apply in_map_iff in Hb. destruct Hb as (i & <- & _).
  destruct (df_vec_modified_In _ _ _ _ _ _ Hr) as (j & p & Hp & ->).
  apply synthetic_row_keys. exact Hp.
Qed.

Lemma synthetic_columns_in_frame (x : string) :
  In "features_for_model" (columns d) ->
  In x (synthetic_columns d c) -> In x (columns d).
Proof.
  intros Hf H. apply synthetic_columns_In in H. destruct H as [_ [-> | H]].
  - exact Hf.
  - exact H.
Qed.


End Schema.



(** ** The frame [pre_smote_df_process] returns *)

Lemma In_remove_first (x t : string) (cs : list string) :
  In x cs -> x <> t -> In x (remove_first t cs).
Proof.
  intros Hin Hne. induction cs as [| y cs IH]; simpl in *.
  - contradiction.
  - destruct (String.eqb t y) eqn:He.
    + apply String.eqb_eq in He. subst y.
      destruct Hin as [H | H]; [congruence | exact H].
    + destruct Hin as [H | H]; [left; exact H | right; apply IH; exact H].
Qed.

Lemma mem_single (x y : string) : mem x [y] = String.eqb x y.
Proof. unfold mem. simpl. apply orb_false_r. Qed.

Lemma mem_false (x : string) (cs : list string) :
  mem x cs = false <-> ~ In x cs.
Proof.
  rewrite <- mem_In. destruct (mem x cs); intuition congruence.
Qed.

Section Vectorized.

Variable E : Engine.
Variable df : DataFrame.
Variable num_cols : list string.
Variable cat_cols : list string.
Variable target_col : string.
Variable index_suffix : string.

Let drop_cols : list string :=
  (if mem target_col num_cols then remove_first target_col num_cols
   else num_cols) ++ cat_cols.

(** The target is among the columns to drop when it is categorical or is
    listed twice among the numerical columns. *)
Lemma target_in_drop_cols :
  In target_col drop_cols
  <-> In target_col (remove_first target_col num_cols)
      \/ In target_col cat_cols.
Proof.
  unfold drop_cols. rewrite in_app_iff.
  destruct (mem target_col num_cols) eqn:Hm; [tauto |].
  apply mem_false in Hm.
  assert (H : remove_first target_col num_cols = num_cols).
  { clear - Hm. induction num_cols as [| y cs IH]; simpl in *.
    - reflexivity.
    - destruct (String.eqb target_col y) eqn:He.
      + apply String.eqb_eq in He. subst y. tauto.
      + f_equal. apply IH. tauto. }
  rewrite H. tauto.
Qed.

(** What [pre_smote_df_process] returns, check by check. *)
Lemma pre_smote_df_process_steps :
  pre_smote_df_process E df num_cols cat_cols target_col index_suffix
  = if negb (mem target_col (columns df))
    then Err (AnalysisException "cannot resolve the target column")
    else if negb (Nat.eqb (List.length (distinct_values target_col df)) 2)
    then Err (ValueError "Target col must have exactly 2 classes")
    else match pos_vectorized E df num_cols cat_cols target_col
                              index_suffix with
         | Err e => Err e
         | Ok v =>
             let keep :=
               filter (fun a => negb (mem a drop_cols)) (columns v) in
             if negb (mem target_col keep)
             then Err (AnalysisException "cannot resolve the target column")
             else
               Ok (df_drop [target_col]
                     (mkDataFrame
                        (withColumn_name "label" keep)
                        (map (fun r =>
                                match get target_col r with
                                | Some w =>
                                    withColumn "label" w (select keep r)
                                | None => select keep r
                                end)
                             (rows v))))
         end.
Proof. reflexivity. Qed.

Section Returns.

Variable pv : DataFrame.

Let keep_cols : list string :=
  filter (fun a => negb (mem a drop_cols)) (columns pv).

Let vectorized_row (r : Row) : Row :=
  drop [target_col]
       match get target_col r with
       | Some v => withColumn "label" v (select keep_cols r)
       | None => select keep_cols r
       end.

Hypothesis target_in_frame : In target_col (columns df).
Hypothesis two_classes :
  List.length (distinct_values target_col df) = 2%nat.
Hypothesis vectorized :
  pos_vectorized E df num_cols cat_cols target_col index_suffix = Ok pv.
Hypothesis target_vectorized : In target_col (columns pv).
Hypothesis target_not_categorical : ~ In target_col cat_cols.
Hypothesis target_once :
  ~ In target_col (remove_first target_col num_cols).

Lemma target_is_kept : mem target_col keep_cols = true.
Proof.
  apply mem_In. unfold keep_cols. apply filter_In.
  split; [exact target_vectorized |].
  apply negb_true_iff. apply mem_false. rewrite target_in_drop_cols. tauto.
Qed.

Lemma pre_smote_df_process_returns :
  pre_smote_df_process E df num_cols cat_cols target_col index_suffix
  = Ok (mkDataFrame
          (drop_names [target_col] (withColumn_name "label" keep_cols))
          (map vectorized_row (rows pv))).
Proof.
  rewrite pre_smote_df_process_steps.
  apply mem_In in target_in_frame. rewrite target_in_frame, two_classes.
  cbn [Nat.eqb negb]. rewrite vectorized. cbv zeta.
  fold keep_cols. rewrite target_is_kept. cbn [negb].
  unfold df_drop. cbn [rows columns].
  rewrite map_map. reflexivity.
Qed.

(** X11.  For a target column of the frame that has two classes, is not
    named [label], is not listed among the categorical columns nor twice
    among the numerical ones, and is still a column after a vectorization
    that succeeds, [pre_smote_df_process] returns a frame with a [label]
    column and without the target column: each row has as its label the
    target value of the row it comes from, has none of the numerical and
    categorical input columns, and keeps every other column of the
    vectorized row. *)
Theorem vectorized_frame_has_label :
  target_col <> "label" ->
  exists v,
    pre_smote_df_process E df num_cols cat_cols target_col index_suffix = Ok v
    /\ In "label" (columns v)
    /\ ~ In target_col (columns v)
    /\ Forall2
         (fun r r0 =>
            get target_col r = None
            /\ (forall w, get target_col r0 = Some w ->
                          get "label" r = Some w)
            /\ (forall x, In x num_cols \/ In x cat_cols ->
                          x <> "label" -> get x r = None)
            /\ (forall x, In x (columns pv) ->
                          ~ In x num_cols -> ~ In x cat_cols ->
                          x <> "label" -> x <> target_col ->
                          get x r = get x r0))
         (rows v) (rows pv).
Proof.
  intro Hne. eexists. split; [apply pre_smote_df_process_returns |].
  cbn [columns rows].
  assert (Hlt : String.eqb "label" target_col = false)
    by (apply String.eqb_neq; congruence).
  split; [| split].
  - unfold drop_names. apply filter_In. split.
    + apply withColumn_name_incl. left. reflexivity.
    + rewrite mem_single, Hlt. reflexivity.
  - unfold drop_names. intro H. apply filter_In in H. destruct H as [_ H].
    rewrite mem_single, String.eqb_refl in H. discriminate.
  - induction (rows pv) as [| r0 l IH]; simpl; constructor; [| exact IH].
    assert (Hother :
              forall x, x <> "label" -> x <> target_col ->
                        get x (vectorized_row r0)
                        = if mem x keep_cols then get x r0 else None).
    { intros x Hx Ht. unfold vectorized_row.
      rewrite get_drop
        by (rewrite mem_single; apply String.eqb_neq; exact Ht).
      destruct (get target_col r0).
      - rewrite get_withColumn_other by congruence. apply get_select.
      - apply get_select. }
    split; [| split; [| split]].
    + unfold vectorized_row. apply get_None. rewrite keys_drop.
      unfold drop_names. intro H. apply filter_In in H. destruct H as [_ H].
      rewrite mem_single, String.eqb_refl in H. discriminate.
    + intros w Hw. unfold vectorized_row. rewrite Hw.
      rewrite get_drop by (rewrite mem_single; exact Hlt).
      apply get_withColumn_same.
    + intros x Hx Hl.
      destruct (string_dec x target_col) as [-> | Ht].
      * unfold vectorized_row. apply get_None. rewrite keys_drop.
        unfold drop_names. intro H. apply filter_In in H.
        destruct H as [_ H].
        rewrite mem_single, String.eqb_refl in H. discriminate.
      * rewrite Hother by assumption.
        assert (Hd : In x drop_cols).
        { unfold drop_cols. apply in_or_app.
          destruct Hx as [Hx | Hx]; [left | right; exact Hx].
          destruct (mem target_col num_cols); [| exact Hx].
          apply In_remove_first; assumption. }
        destruct (mem x keep_cols) eqn:Hk; [| reflexivity].
        apply mem_In in Hk. unfold keep_cols in Hk.
        apply filter_In in Hk. destruct Hk as [_ Hk].
        apply mem_In in Hd. rewrite Hd in Hk. discriminate.
    + intros x Hx Hn Hc Hl Ht. rewrite Hother by assumption.
      assert (Hk : In x keep_cols).
      { unfold keep_cols. apply filter_In. split; [exact Hx |].
        apply negb_true_iff.
        destruct (mem x drop_cols) eqn:Hd; [| reflexivity].
        apply mem_In in Hd. unfold drop_cols in Hd.
        apply in_app_or in Hd. destruct Hd as [Hd | Hd].
        - exfalso. apply Hn.
          destruct (mem target_col num_cols); [| exact Hd].
          clear - Hd. induction num_cols as [| y cs IH]; simpl in *.
          + contradiction.
          + destruct (String.eqb target_col y);
              [right; exact Hd |].
            destruct Hd as [Hd | Hd]; [left; exact Hd | right; auto].
        - contradiction. }
      apply mem_In in Hk. rewrite Hk. reflexivity.
Qed.

End Returns.

(** X17.  [pre_smote_df_process] raises for a target column that the frame
    does not have, and for a target column listed among the categorical
    columns, whatever the frame and the other arguments: such a target is
    among the columns to drop, and the label cannot be read from it. *)
Theorem categorical_target_raises :
  (~ In target_col (columns df) ->
   exists msg,
     pre_smote_df_process E df num_cols cat_cols target_col index_suffix
     = Err (AnalysisException msg))
  /\ (In target_col cat_cols ->
      exists e,
        pre_smote_df_process E df num_cols cat_cols target_col index_suffix
        = Err e).
Proof.
  rewrite pre_smote_df_process_steps. split.
  - intro H. apply mem_false in H. rewrite H. eexists. reflexivity.
  - intro Hc.
    destruct (negb (mem target_col (columns df))); [eexists; reflexivity |].
    destruct (negb (Nat.eqb (List.length (distinct_values target_col df)) 2));
      [eexists; reflexivity |].
    destruct (pos_vectorized E df num_cols cat_cols target_col index_suffix)
      as [v | e]; [| eexists; reflexivity].
    cbv zeta.
    assert (Hk : mem target_col
                     (filter (fun a => negb (mem a drop_cols)) (columns v))
                 = false).
    { apply mem_false. intro H. apply filter_In in H. destruct H as [_ H].
      apply negb_true_iff in H. apply mem_false in H. apply H.
      apply target_in_drop_cols. right. exact Hc. }
    rewrite Hk. eexists. reflexivity.
Qed.

End Vectorized.

Lemma vectorized_frame_has_label_witness :
  exists pv,
    pos_vectorized first_coordinate_engine raw_frame
                   ["amount"] ["type"] "isFraud" "_index" = Ok pv
    /\ exists v,
      pre_smote_df_process first_coordinate_engine raw_frame
                           ["amount"] ["type"] "isFraud" "_index" = Ok v
      /\ In "label" (columns v)
      /\ ~ In "isFraud" (columns v)
      /\ Forall2
           (fun r r0 =>
              get "isFraud" r = None
              /\ (forall w, get "isFraud" r0 = Some w ->
                            get "label" r = Some w)
              /\ (forall x, In x ["amount"] \/ In x ["type"] ->
                            x <> "label" -> get x r = None)
              /\ (forall x, In x (columns pv) ->
                            ~ In x ["amount"] -> ~ In x ["type"] ->
                            x <> "label" -> x <> "isFraud" ->
                            get x r = get x r0))
           (rows v) (rows pv).
Proof.
  eexists. split; [vm_compute; reflexivity |].
  apply (@vectorized_frame_has_label first_coordinate_engine raw_frame
           ["amount"] ["type"] "isFraud" "_index").
  - simpl. tauto.
  - vm_compute. reflexivity.
  - vm_compute. reflexivity.
  - simpl. tauto.
  - simpl. intuition discriminate.
  - simpl. intuition discriminate.
  - discriminate.
Defined.

Lemma categorical_target_raises_witness :
  (exists msg,
      pre_smote_df_process first_coordinate_engine raw_frame
                           ["amount"] ["type"] "fraud" "_index"
      = Err (AnalysisException msg))
  /\ exists e,
      pre_smote_df_process first_coordinate_engine raw_frame
                           ["amount"] ["type"; "isFraud"] "isFraud" "_index"
      = Err e.
Proof.
  split.
  - apply (proj1 (@categorical_target_raises first_coordinate_engine
                    raw_frame ["amount"] ["type"] "fraud" "_index")).
    simpl. intuition discriminate.
  - apply (proj2 (@categorical_target_raises first_coordinate_engine
                    raw_frame ["amount"] ["type"; "isFraud"] "isFraud"
                    "_index")).
    simpl. tauto.
Defined.

Section LabelTarget.

Variable E : Engine.
Variable df : DataFrame.
Variable num_cols : list string.
Variable cat_cols : list string.
Variable index_suffix : string.
Variable pv : DataFrame.

(** X12.  When the target column is itself named [label] and
    [pre_smote_df_process] returns (the column is in the frame with two
    classes, is not listed among the categorical columns nor twice among
    the numerical ones, and the vectorization succeeds and keeps it), the
    frame returned has no [label] column: the column is written and then
    dropped under the name of the target. *)
Theorem label_target_is_dropped :
  In "label" (columns df) ->
  List.length (distinct_values "label" df) = 2%nat ->
  pos_vectorized E df num_cols cat_cols "label" index_suffix = Ok pv ->
  In "label" (columns pv) ->
  ~ In "label" cat_cols ->
  ~ In "label" (remove_first "label" num_cols) ->
  exists v,
    pre_smote_df_process E df num_cols cat_cols "label" index_suffix = Ok v
    /\ ~ In "label" (columns v)
    /\ (forall r, In r (rows v) -> get "label" r = None).
Proof.
  intros H1 H2 H3 H4 H5 H6. eexists.
  split; [apply (@pre_smote_df_process_returns E df num_cols cat_cols "label"
                   index_suffix pv H1 H2 H3 H4 H5 H6) |].
  cbn [columns rows]. split.
  - unfold drop_names. intro Hin. apply filter_In in Hin.
    destruct Hin as [_ Hin]. discriminate.
  - intros r Hr. apply in_map_iff in Hr. destruct Hr as (r0 & <- & _).
    apply get_None. rewrite keys_drop. unfold drop_names. intro Hin.
    apply filter_In in Hin. destruct Hin as [_ Hin]. discriminate.
Qed.

End LabelTarget.

Lemma label_target_is_dropped_witness :
  exists v,
    pre_smote_df_process first_coordinate_engine raw_frame_label
                         ["amount"] ["type"] "label" "_index" = Ok v
    /\ ~ In "label" (columns v)
    /\ (forall r, In r (rows v) -> get "label" r = None).
Proof.
  eapply (@label_target_is_dropped first_coordinate_engine raw_frame_label
            ["amount"] ["type"] "_index").
  - simpl. tauto.
  - vm_compute. reflexivity.
  - vm_compute. reflexivity.
  - simpl. tauto.
  - simpl. intuition discriminate.
  - simpl. intuition discriminate.
Defined.


(** ** The symmetry of the join *)

Section Symmetry.

Variable E : Engine.
Variable d : DataFrame.
Variable c : SmoteConfig.

(** X14.  For a distance that does not depend on the order of its
    arguments, the join without the pairs at distance 0 is symmetric: with
    a pair it has the pair of the same two rows in the other order, at the
    same distance.  The candidate lists differ by the ranking only. *)
Theorem self_join_symmetric (p : Pair) :
  distance_symmetric E ->
  In p (self_join_w_distance E d c) ->
  In (mkPair (datasetB p) (datasetA p) (EuclideanDistance p))
     (self_join_w_distance E d c).
Proof.
  intros Hsym H. apply self_join_w_distance_In in H. destruct H as [Hj Hd].
  apply approxSimilarityJoin_In in Hj. destruct Hj as (Ha & Hb & Hm & He).
  apply self_join_w_distance_In. split; [| exact Hd].
  apply approxSimilarityJoin_In. simpl.
  split; [exact Hb |]. split; [exact Ha |]. split; [congruence |].
  rewrite He. apply Hsym.
Qed.

End Symmetry.

Lemma squared_distance_symmetric : distance_symmetric first_coordinate_engine.
Proof.
  intros v w. simpl. unfold squared_distance.
  generalize (toArray w). induction (toArray v) as [| x a IH];
    intros [| y b]; simpl; try reflexivity.
  rewrite IH. ring.
Qed.

Lemma self_join_symmetric_witness :
  let p := nth 0 (self_join_w_distance first_coordinate_engine frame_AB_C
                                       (config 1 1))
               (mkPair [] [] (Q2Qc 0)) in
  In (mkPair (datasetB p) (datasetA p) (EuclideanDistance p))
     (self_join_w_distance first_coordinate_engine frame_AB_C (config 1 1)).
Proof.
  intro p.
  apply (@self_join_symmetric first_coordinate_engine frame_AB_C
                              (config 1 1) p).
  - exact squared_distance_symmetric.
  - vm_compute. left. reflexivity.
Defined.


(** ** The size of a batch *)

Lemma list_sum_map_add (B : Type) (f g : B -> nat) (l : list B) :
  list_sum (map (fun x => (f x + g x)%nat) l)
  = (list_sum (map f l) + list_sum (map g l))%nat.
Proof.
  induction l as [| x l IH]; simpl.
  - reflexivity.
  - rewrite IH. lia.
Qed.

Lemma list_sum_map_le (B : Type) (f g : B -> nat) (l : list B) :
  (forall x, In x l -> (f x <= g x)%nat) ->
  (list_sum (map f l) <= list_sum (map g l))%nat.
Proof.
  induction l as [| x l IH]; simpl; intro H.
  - apply Nat.le_refl.
  - apply Nat.add_le_mono.
    + apply H. left. reflexivity.
    + apply IH. intros y Hy. apply H. right. exact Hy.
Qed.

Lemma indicator_sum (a : Row) (ks : list Row) :
  NoDup ks -> In a ks ->
  list_sum (map (fun b => if Row_eqb a b then 1%nat else 0%nat) ks) = 1%nat.
Proof.
  induction 1 as [| b ks Hn Hnd IH]; intro Hin; simpl.
  - contradiction.
  - destruct (Row_eqb a b) eqn:He.
    + apply Row_eqb_eq in He. subst b.
      rewrite (@list_sum_const 0%nat); [rewrite Nat.mul_0_r; reflexivity |].
      intros x Hx. apply in_map_iff in Hx. destruct Hx as (b & <- & Hb).
      destruct (Row_eqb a b) eqn:Hab; [| reflexivity].
      apply Row_eqb_eq in Hab. subst b. contradiction.
    + apply IH. destruct Hin as [-> | Hin]; [| exact Hin].
      assert (Row_eqb a a = true) by (apply Row_eqb_eq; reflexivity).
      congruence.
Qed.

(** A list is as long as its groups together. *)
Lemma length_by_keys (B : Type) (key : B -> Row) (ks : list Row)
      (l : list B) :
  NoDup ks ->
  (forall x, In x l -> In (key x) ks) ->
  List.length l
  = list_sum (map (fun a => List.length
                              (filter (fun x => Row_eqb (key x) a) l)) ks).
Proof.
  intros Hnd. induction l as [| x l IH]; intro H.
  - cbn [filter List.length]. rewrite (@list_sum_const 0%nat).
    + symmetry. apply Nat.mul_0_r.
    + intros n Hn. apply in_map_iff in Hn. destruct Hn as (a & <- & _).
      reflexivity.
  - cbn [List.length].
    rewrite IH by (intros y Hy; apply H; right; exact Hy).
    transitivity
      (list_sum
         (map (fun a =>
                 ((if Row_eqb (key x) a then 1 else 0)
                  + List.length (filter (fun y => Row_eqb (key y) a) l))%nat)
              ks)).
    + rewrite list_sum_map_add.
      rewrite (@indicator_sum (key x) ks Hnd (H x (or_introl eq_refl))).
      reflexivity.
    + f_equal. apply map_ext. intro a.
      cbn [filter]. destruct (Row_eqb (key x) a); reflexivity.
Qed.

Lemma list_sum_bounds (lo hi : nat) (l : list nat) :
  (forall x, In x l -> (lo <= x <= hi)%nat) ->
  (List.length l * lo <= list_sum l <= List.length l * hi)%nat.
Proof.
  induction l as [| x l IH]; simpl; intro H.
  - lia.
  - assert (Hx := H x (or_introl eq_refl)).
    assert (Hl := IH (fun y Hy => H y (or_intror Hy))). lia.
Qed.

Section BatchSize.

Variable E : Engine.
Variable rnd : Randomness.
Variable d : DataFrame.
Variable c : SmoteConfig.

Lemma sources_NoDup : NoDup (sources E d c).
Proof. unfold sources. apply NoDup_nodup. Qed.

Lemma source_has_candidates (a : Row) :
  In a (sources E d c) -> candidates E d c a <> [].
Proof.
  unfold sources. rewrite nodup_In, in_map_iff.
  intros (x & Hx & Hin) Hnil.
  assert (Hc : In (datasetB (fst x)) (candidates E d c a)).
  { unfold candidates.
    apply (in_map (fun y : Pair * Z => datasetB (fst y))).
    apply filter_In.
    split; [exact Hin |]. apply Row_eqb_eq. exact Hx. }
  rewrite Hnil in Hc. contradiction.
Qed.

Lemma batch_size_between (i : nat) :
  (List.length (sources E d c) <= List.length (df_random_sel E rnd d c i)
   <= List.length (self_similarity_df_selected E d c))%nat.
Proof.
  rewrite (@length_by_keys _ datasetA (sources E d c)
             (df_random_sel E rnd d c i) sources_NoDup).
  - rewrite (@length_by_keys _ (fun x : Pair * Z => datasetA (fst x))
               (sources E d c) (self_similarity_df_selected E d c)
               sources_NoDup).
    + split.
      * rewrite <- (@list_sum_ones _ (fun _ : Row => 1%nat) (sources E d c))
          by reflexivity.
        apply list_sum_map_le. intros a Ha.
        destruct (source_gets_a_pair E rnd d c i a
                    (source_has_candidates a Ha)) as (p & Hp & Hsrc).
        assert (Hin : In p (filter (fun p => Row_eqb (datasetA p) a)
                                   (df_random_sel E rnd d c i))).
        { apply filter_In. split; [exact Hp |]. apply Row_eqb_eq. exact Hsrc. }
        destruct (filter (fun p => Row_eqb (datasetA p) a)
                         (df_random_sel E rnd d c i));
          [contradiction | simpl; lia].
      * apply list_sum_map_le. intros a _. apply selected_of_source_le.
    + intros x Hx. unfold sources. apply nodup_In.
      apply (in_map (fun x : Pair * Z => datasetA (fst x))). exact Hx.
  - intros p Hp. apply df_random_sel_In in Hp. destruct Hp as (n & Hp).
    unfold sources. apply nodup_In.
    apply (in_map (fun x : Pair * Z => datasetA (fst x)) _ (p, n)). exact Hp.
Qed.


End BatchSize.



(** ** The rows that get synthetic rows *)

Section Sources.

Variable E : Engine.
Variable d : DataFrame.
Variable c : SmoteConfig.

(** X16.  With [k >= 1], the sources of the index, the rows for which
    batches make synthetic rows, are exactly the minority rows that have
    another minority row of their bucket at a positive distance; with
    [k < 1] there is no source. *)
Theorem sources_are_rows_with_neighbour (a : Row) :
  (1 <= k c ->
   (In a (sources E d c)
    <-> In a (rows (dataInput_min d c))
        /\ exists b,
             In b (rows (dataInput_min d c))
             /\ model E c (features_of a) = model E c (features_of b)
             /\ (Q2Qc 0 < keyDistance E (features_of a) (features_of b))%Qc))
  /\ (k c < 1 -> sources E d c = []).
Proof.
  split.
  - intro Hk. unfold sources. rewrite nodup_In, in_map_iff. split.
    + intros ([p n] & Ha & Hin). simpl in Ha. subst a.
      apply self_similarity_df_selected_In in Hin. destruct Hin as [Hin _].
      apply self_similarity_df_In in Hin. destruct Hin as [Hin _].
      apply self_join_w_distance_In in Hin. destruct Hin as [Hj Hd].
      apply approxSimilarityJoin_In in Hj.
      destruct Hj as (HA & HB & Hm & He).
      split; [exact HA |]. exists (datasetB p).
      split; [exact HB |]. split; [exact Hm |]. rewrite <- He. exact Hd.
    + intros (Ha & b & Hb & Hm & Hd).
      set (p := mkPair a b (keyDistance E (features_of a) (features_of b))).
      assert (Hp : In p (self_join_w_distance E d c)).
      { apply self_join_w_distance_In. split; [| exact Hd].
        apply approxSimilarityJoin_In. simpl. tauto. }
      destruct (self_similarity_df_first _ _ _ _ Hp) as (p0 & H0 & Hsrc).
      exists (p0, 1). split; [exact Hsrc |].
      apply self_similarity_df_selected_In. split; [exact H0 | exact Hk].
  - intro Hk. unfold sources.
    rewrite (self_similarity_df_selected_nil E d c Hk). reflexivity.
Qed.

End Sources.

Lemma sources_are_rows_with_neighbour_witness :
  In (sample_row 1 [0; 0] 7)
     (sources first_coordinate_engine frame_AB_C (config 1 1))
  /\ sources first_coordinate_engine frame_AB_C (config 0 1) = [].
Proof.
  split.
  - apply (proj1 (@sources_are_rows_with_neighbour first_coordinate_engine
                    frame_AB_C (config 1 1) (sample_row 1 [0; 0] 7))).
    + simpl. lia.
    + split.
      * vm_compute. auto.
      * exists (sample_row 1 [2; 0] 9). split; [| split].
        -- vm_compute. auto.
        -- vm_compute. reflexivity.
        -- vm_compute. reflexivity.
  - apply (proj2 (@sources_are_rows_with_neighbour first_coordinate_engine
                    frame_AB_C (config 0 1) (sample_row 1 [0; 0] 7))).
    simpl. lia.
Defined.
